(** * Configuration-property mapping and connector visibility filtering

    A shallow embedding of the data-shaping code of
    [user-self-registration.tsx]: the self-registration property mapper
    (component [UserSelfRegistration]) and the static utility class
    [GovernanceConnectorUtils].

    JavaScript strings are modelled as [string], arrays as [list], objects
    that are only read as records.  A JavaScript exception is a value of
    [JsError]; a computation that may throw returns a [completion]. *)

From Stdlib Require Import Ascii String.
From stdpp Require Import gmap strings list.

Local Open Scope string_scope.
Local Open Scope list_scope.

(** ** Exceptions *)

(** An [Error] object, reduced to its [name] and to the member whose read
    on [undefined] raised it. *)
Record JsError := mkJsError {
  error_name : string;
  error_member : string
}.

(** The [TypeError] raised by evaluating [undefined.member]. *)
Definition TypeError (member : string) : JsError :=
  {| error_name := "TypeError"; error_member := member |}.

Inductive completion (A : Type) : Type :=
| Normal (a : A)
| Throw (e : JsError).
Arguments Normal {A} a.
Arguments Throw {A} e.

#[global] Instance completion_ret : MRet completion := @Normal.
#[global] Instance completion_bind : MBind completion := λ A B f m,
  match m with
  | Normal a => f a
  | Throw e => Throw e
  end.

(** [Array.prototype.push]: the element goes to the end. *)
Definition push {A} (values : list A) (x : A) : list A := values ++ [x].

(** [Array.prototype.includes] on an array of strings. *)
Definition includes (values : list string) (x : string) : bool :=
  bool_decide (x ∈ values).

(** ** The self-registration property mapper *)

Module UserSelfRegistration.

Definition SELF_REGISTRATION_ENABLE := "SelfRegistration.Enable".
Definition ACCOUNT_LOCK_ON_CREATION := "SelfRegistration.LockOnCreation".
Definition NOTIFICATION_INTERNALLY_MANAGED :=
  "SelfRegistration.Notification.InternallyManage".
Definition RE_CAPTCHA := "SelfRegistration.ReCaptcha".
Definition VERIFICATION_CODE_EXPIRY_TIME :=
  "SelfRegistration.VerificationCode.ExpiryTime".
Definition SMS_OTP_EXPIRY_TIME :=
  "SelfRegistration.VerificationCode.SMSOTP.ExpiryTime".
Definition CALLBACK_REGEX := "SelfRegistration.CallbackRegex".

(** One [{ name, value }] entry of the configuration API. *)
Record ConfigProperty := mkProperty {
  name : string;
  value : string
}.

#[global] Instance ConfigProperty_eq_dec : EqDecision ConfigProperty.
Proof. solve_decision. Defined.

(** The API response, of which the code reads [properties] only. *)
Record SelfSignUpResponse := mkResponse {
  properties : list ConfigProperty
}.

(** The component state [selfSignUpConfigs]. *)
Record SelfSignUpConfigurationsInterface := mkConfigs {
  checkboxValues : list string;
  verificationCodeExpiryTime : string;
  smsOTPExpiryTime : string;
  callbackRegex : string
}.

(** The body of the PATCH request. *)
Record PatchCallData := mkPatch {
  patch_operation : string;
  patch_properties : list ConfigProperty
}.

(** The callback of [data.properties.map] in
    [getSelfRegistrationCheckboxValues]: four independent [if]s, each
    pushing its own key when the value is the string [true]. *)
Definition checkboxCallback (values : list string) (property : ConfigProperty)
  : list string :=
  let values :=
    if decide (name property = SELF_REGISTRATION_ENABLE) then
      if decide (value property = "true")
      then push values SELF_REGISTRATION_ENABLE else values
    else values in
  let values :=
    if decide (name property = ACCOUNT_LOCK_ON_CREATION) then
      if decide (value property = "true")
      then push values ACCOUNT_LOCK_ON_CREATION else values
    else values in
  let values :=
    if decide (name property = NOTIFICATION_INTERNALLY_MANAGED) then
      if decide (value property = "true")
      then push values NOTIFICATION_INTERNALLY_MANAGED else values
    else values in
  let values :=
    if decide (name property = RE_CAPTCHA) then
      if decide (value property = "true")
      then push values RE_CAPTCHA else values
    else values in
  values.

(** [const values = []; data.properties.map(...); return values]. *)
Definition getSelfRegistrationCheckboxValues (data : SelfSignUpResponse)
  : list string :=
  fold_left checkboxCallback (properties data) [].

(** [array.find(property => property.name == key)]; [None] is
    [undefined]. *)
Definition find_by_name (key : string) (array : list ConfigProperty)
  : option ConfigProperty :=
  List.find (λ property, bool_decide (name property = key)) array.

(** Reading [.value] on the result of [find]. *)
Definition member_value (found : option ConfigProperty) : completion string :=
  match found with
  | Some property => Normal (value property)
  | None => Throw (TypeError "value")
  end.

(** The handler of [getSelfSignUpConfigurations().then] in [useEffect]: it
    builds the object [configs] that becomes the component state.  The
    fields of the object literal are evaluated in the order written. *)
Definition toViewModel (response : SelfSignUpResponse)
  : completion SelfSignUpConfigurationsInterface :=
  let checkboxValues := getSelfRegistrationCheckboxValues response in
  verificationCodeExpiryTime ←
    member_value (find_by_name VERIFICATION_CODE_EXPIRY_TIME (properties response));
  smsOTPExpiryTime ←
    member_value (find_by_name SMS_OTP_EXPIRY_TIME (properties response));
  callbackRegex ←
    member_value (find_by_name CALLBACK_REGEX (properties response));
  mret {| checkboxValues := checkboxValues;
          verificationCodeExpiryTime := verificationCodeExpiryTime;
          smsOTPExpiryTime := smsOTPExpiryTime;
          callbackRegex := callbackRegex |}.

(** [c ? "true" : "false"]. *)
Definition flag (c : bool) : string := if c then "true" else "false".

Definition getSelfSignUpPatchCallData
  (selfSignUpConfigs : SelfSignUpConfigurationsInterface) : PatchCallData :=
  {| patch_operation := "UPDATE";
     patch_properties := [
       {| name := SELF_REGISTRATION_ENABLE;
          value := flag (includes (checkboxValues selfSignUpConfigs)
                                   SELF_REGISTRATION_ENABLE) |};
       {| name := ACCOUNT_LOCK_ON_CREATION;
          value := flag (includes (checkboxValues selfSignUpConfigs)
                                   ACCOUNT_LOCK_ON_CREATION) |};
       {| name := NOTIFICATION_INTERNALLY_MANAGED;
          value := flag (includes (checkboxValues selfSignUpConfigs)
                                   NOTIFICATION_INTERNALLY_MANAGED) |};
       {| name := RE_CAPTCHA;
          value := flag (includes (checkboxValues selfSignUpConfigs)
                                   RE_CAPTCHA) |};
       {| name := VERIFICATION_CODE_EXPIRY_TIME;
          value := verificationCodeExpiryTime selfSignUpConfigs |};
       {| name := SMS_OTP_EXPIRY_TIME;
          value := smsOTPExpiryTime selfSignUpConfigs |};
       {| name := CALLBACK_REGEX;
          value := callbackRegex selfSignUpConfigs |}
     ] |}.

(** The keys the component declares, in the order of the PATCH body. *)
Definition flagKeys : list string :=
  [ SELF_REGISTRATION_ENABLE; ACCOUNT_LOCK_ON_CREATION;
    NOTIFICATION_INTERNALLY_MANAGED; RE_CAPTCHA ].

Definition scalarKeys : list string :=
  [ VERIFICATION_CODE_EXPIRY_TIME; SMS_OTP_EXPIRY_TIME; CALLBACK_REGEX ].

Definition declaredKeys : list string := flagKeys ++ scalarKeys.

(** [property] is the first entry of [array] named [key]. *)
Definition first_named (key : string) (array : list ConfigProperty)
  (property : ConfigProperty) : Prop :=
  ∃ before after,
    array = before ++ property :: after ∧
    name property = key ∧
    Forall (λ q, name q ≠ key) before.

(** [key] names exactly one entry of [array]. *)
Definition occurs_once (key : string) (array : list ConfigProperty) : Prop :=
  length (filter (λ q, name q = key) array) = 1.

(** The entry of a PATCH body for [key] carries [v]. *)
Definition entry_value (body : list ConfigProperty) (key v : string) : Prop :=
  ∀ property, property ∈ body → name property = key → value property = v.

(** The input properties that select a checkbox. *)
Definition selects (q : ConfigProperty) : Prop :=
  name q ∈ flagKeys ∧ value q = "true".

#[global] Instance selects_dec q : Decision (selects q).
Proof. unfold selects. apply _. Defined.

(** The example of the specification. *)
Definition example_response : SelfSignUpResponse :=
  {| properties := [
       mkProperty "SelfRegistration.Enable" "true";
       mkProperty "SelfRegistration.LockOnCreation" "false";
       mkProperty "SelfRegistration.VerificationCode.ExpiryTime" "1440";
       mkProperty "SelfRegistration.VerificationCode.SMSOTP.ExpiryTime" "1";
       mkProperty "SelfRegistration.CallbackRegex" ".*" ] |}.

End UserSelfRegistration.

(** ** The governance connector utilities *)

Module GovernanceConnectorUtils.

(** The interfaces of [../models] are not part of the sources at hand; the
    records below have the members the code reads or writes, and a few more
    that a connector carries along.  Members are prefixed, as several
    interfaces have an [id], a [name] and [properties]. *)

(** An entry of the allow-list: a connector and the names of its visible
    properties. *)
Record GovernanceConnectorForOrgsInterface := mkOrgConnector {
  org_friendlyName : string;
  org_id : string;
  org_name : string;
  org_properties : list string
}.

Record GovernanceCategoryForOrgsInterface := mkOrgCategory {
  category_connectors : list GovernanceConnectorForOrgsInterface;
  category_id : string;
  category_name : string
}.

Record ConnectorPropertyInterface := mkConnectorProperty {
  property_name : string;
  property_value : string;
  property_displayName : string;
  property_description : string
}.

(** A connector as the remote API reports it. *)
Record GovernanceConnectorInterface := mkConnector {
  connector_id : string;
  connector_name : string;
  connector_category : string;
  connector_friendlyName : string;
  connector_properties : list ConnectorPropertyInterface
}.

(** [connector.properties = properties]. *)
Definition set_properties (connector : GovernanceConnectorInterface)
  (properties : list ConnectorPropertyInterface) : GovernanceConnectorInterface :=
  {| connector_id := connector_id connector;
     connector_name := connector_name connector;
     connector_category := connector_category connector;
     connector_friendlyName := connector_friendlyName connector;
     connector_properties := properties |}.

(** *** Strings *)

(** [s.split(sep)] for a separator of one character: the pieces between
    the occurrences of [sep]; the empty string gives one empty piece. *)
Fixpoint split (sep : ascii) (s : string) : list string :=
  match s with
  | EmptyString => [ EmptyString ]
  | String c rest =>
      if decide (c = sep) then EmptyString :: split sep rest
      else match split sep rest with
           | piece :: pieces => String c piece :: pieces
           | [] => [ String c EmptyString ]
           end
  end.

(** [pieces.join(sep)]. *)
Fixpoint join (sep : string) (pieces : list string) : string :=
  match pieces with
  | [] => EmptyString
  | [ piece ] => piece
  | piece :: rest => piece +:+ sep +:+ join sep rest
  end.

Definition encodeConnectorPropertyName (name : string) : string :=
  join "-" (split "." name).

(** [name?.split("-").join(".")]: [None] is [undefined], which the optional
    chaining hands back. *)
Definition decodeConnectorPropertyName (name : option string) : option string :=
  match name with
  | Some name => Some (join "." (split "-" name))
  | None => None
  end.

(** [s] with every character [from] replaced by [to]. *)
Fixpoint replace_all (from to : ascii) (s : string) : string :=
  match s with
  | EmptyString => EmptyString
  | String c rest =>
      String (if decide (c = from) then to else c) (replace_all from to rest)
  end.

(** The character [c] occurs in [s]. *)
Fixpoint occurs (c : ascii) (s : string) : Prop :=
  match s with
  | EmptyString => False
  | String d rest => d = c ∨ occurs c rest
  end.

(** *** The allow-list for sub organizations *)

Definition SHOW_GOVERNANCE_CONNECTORS_FOR_SUBORGS
  : list GovernanceCategoryForOrgsInterface := [
  {| category_connectors := [
       {| org_friendlyName := "Account Recovery";
          org_id := "YWNjb3VudC1yZWNvdmVyeQ";
          org_name := "account-recovery";
          org_properties := [
            "Recovery.Notification.Password.Enable"
          ] |}
     ];
     category_id := "QWNjb3VudCBNYW5hZ2VtZW50";
     category_name := "Account Management" |};
  {| category_connectors := [
       {| org_friendlyName := "Ask Password";
          org_id := "dXNlci1lbWFpbC12ZXJpZmljYXRpb24";
          org_name := "user-email-verification";
          org_properties := [
            "EmailVerification.Enable";
            "EmailVerification.LockOnCreation";
            "EmailVerification.Notification.InternallyManage";
            "EmailVerification.ExpiryTime";
            "EmailVerification.AskPassword.ExpiryTime";
            "EmailVerification.AskPassword.PasswordGenerator";
            "_url_listPurposeJITProvisioning"
          ] |}
     ];
     category_id := "VXNlciBPbmJvYXJkaW5n";
     category_name := "User Onboarding" |}
].

(** *** Connector objects and the store *)

(** The connectors handed to the filter are objects: the array holds
    references, and the callback assigns to a member of the object it is
    given.  A reference is a key of the store; a key with no object stands
    for an [undefined] element. *)
Abbreviation loc := nat.
Abbreviation Heap := (gmap nat GovernanceConnectorInterface).

(** A computation that reads and writes the store and may throw. *)
Definition M (A : Type) : Type := Heap → completion A * Heap.

#[global] Instance M_ret : MRet M := λ A a h, (Normal a, h).
#[global] Instance M_bind : MBind M := λ A B f m h,
  match m h with
  | (Normal a, h') => f a h'
  | (Throw e, h') => (Throw e, h')
  end.

(** A computation that does not touch the store. *)
Definition lift {A} (c : completion A) : M A := λ h, (c, h).

(** [connector.member], read. *)
Definition read {A} (member : string) (field : GovernanceConnectorInterface → A)
  (connector : loc) : M A := λ h,
  match h !! connector with
  | Some object => (Normal (field object), h)
  | None => (Throw (TypeError member), h)
  end.

(** [connector.properties = properties]. *)
Definition write_properties (connector : loc)
  (properties : list ConnectorPropertyInterface) : M unit := λ h,
  match h !! connector with
  | Some object => (Normal (), <[connector := set_properties object properties]> h)
  | None => (Throw (TypeError "properties"), h)
  end.

(** [array.filter(callback)] for a callback with effects: the callback runs
    on each element in order, and the elements it accepts make up a new
    array. *)
Fixpoint array_filter (callback : loc → M bool) (array : list loc)
  : M (list loc) :=
  match array with
  | [] => mret []
  | element :: rest =>
      keep ← callback element;
      kept ← array_filter callback rest;
      mret (if keep : bool then element :: kept else kept)
  end.

(** *** The filter *)

(** [array.filter(...)[0].properties] *)
Definition getGovernanceConnectorsProperties
  (showGovernanceConnectors : list GovernanceConnectorForOrgsInterface)
  (governanceConnectorId : string) : completion (list string) :=
  match head (filter (λ connector, org_id connector = governanceConnectorId)
                     showGovernanceConnectors) with
  | Some connector => Normal (org_properties connector)
  | None => Throw (TypeError "properties")
  end.

(** The callback of [governanceConnectors.filter]. *)
Definition filterCallback
  (showGovernanceConnectors : list GovernanceConnectorForOrgsInterface)
  (showGovernanceConnectorsIdOfSuborgs : list string)
  (connector : loc) : M bool :=
  id ← read "id" connector_id connector;
  if includes showGovernanceConnectorsIdOfSuborgs id then
    id ← read "id" connector_id connector;
    showProperties ←
      lift (getGovernanceConnectorsProperties showGovernanceConnectors id);
    properties ← read "properties" connector_properties connector;
    write_properties connector
      (filter (λ property, property_name property ∈ showProperties) properties);;
    mret true
  else mret false.

Definition filterGovernanceConnectorCategories
  (governanceCategoryId : string) (governanceConnectors : list loc)
  : M (list loc) :=
  showGovernanceConnectors ←
    lift (match head (filter (λ category, category_id category = governanceCategoryId)
                             SHOW_GOVERNANCE_CONNECTORS_FOR_SUBORGS) with
          | Some category => Normal (category_connectors category)
          | None => Throw (TypeError "connectors")
          end);
  let showGovernanceConnectorsIdOfSuborgs :=
    fold_left (λ ids connector, push ids (org_id connector))
              showGovernanceConnectors [] in
  array_filter
    (filterCallback showGovernanceConnectors showGovernanceConnectorsIdOfSuborgs)
    governanceConnectors.

(** *** Labels and hints *)

(** The translation provider [I18n.instance]. *)
Record I18n := mkI18n {
  i18n_exists : string → bool;
  i18n_t : string → string
}.

Section Labels.

(** [camelCase] of lodash and the translation provider are outside the
    repository. *)
Variable camelCase : string → string.
Variable instance : I18n.

Definition fieldLabelKey (category name : string) : string :=
  "console:manage.features.governanceConnectors.connectorCategories." +:+
  camelCase category +:+ ".connectors." +:+ camelCase name +:+
  ".properties." +:+ camelCase name +:+ ".label".

Definition resolveFieldLabel (category name displayName : string) : string :=
  let fieldLabelKey := fieldLabelKey category name in
  let fieldLabel := displayName in
  let fieldLabel :=
    if i18n_exists instance fieldLabelKey
    then i18n_t instance fieldLabelKey else fieldLabel in
  fieldLabel.

Definition fieldHintKey (category name : string) : string :=
  "console:manage.features.governanceConnectors.connectorCategories." +:+
  camelCase category +:+ ".connectors." +:+ camelCase name +:+
  ".properties." +:+ camelCase name +:+ ".hint".

Definition resolveFieldHint (category name description : string) : string :=
  let fieldHintKey := fieldHintKey category name in
  let fieldHint := description in
  let fieldHint :=
    if i18n_exists instance fieldHintKey
    then i18n_t instance fieldHintKey else fieldHint in
  fieldHint.

End Labels.

(** *** Notions used by the statements *)

(** The identifiers of the connectors of an allow-list entry. *)
Definition allowedIds (category : GovernanceCategoryForOrgsInterface)
  : list string :=
  map org_id (category_connectors category).

(** [name] is declared for the connector [id] in the allow-list entry. *)
Definition allowedProperty (category : GovernanceCategoryForOrgsInterface)
  (id name : string) : Prop :=
  Exists (λ connector, org_id connector = id ∧ name ∈ org_properties connector)
         (category_connectors category).

#[global] Instance allowedProperty_dec category id name :
  Decision (allowedProperty category id name).
Proof. unfold allowedProperty. apply _. Defined.

(** The object behind [connector] has an allow-listed identifier. *)
Definition retained (category : GovernanceCategoryForOrgsInterface)
  (h : Heap) (connector : loc) : Prop :=
  match h !! connector with
  | Some object => connector_id object ∈ allowedIds category
  | None => False
  end.

#[global] Instance retained_dec category h connector :
  Decision (retained category h connector).
Proof. unfold retained. destruct (h !! connector); apply _. Defined.

(** The properties of [object] that the allow-list entry declares for it. *)
Definition visibleProperties (category : GovernanceCategoryForOrgsInterface)
  (object : GovernanceConnectorInterface) : list ConnectorPropertyInterface :=
  filter (λ property,
            allowedProperty category (connector_id object) (property_name property))
         (connector_properties object).

(** Every element of the array refers to an object. *)
Definition live (h : Heap) (array : list loc) : Prop :=
  Forall (λ connector, is_Some (h !! connector)) array.

(** The object [object] once the callback has assigned its visible
    properties to it. *)
Definition restrict (category : GovernanceCategoryForOrgsInterface)
  (object : GovernanceConnectorInterface) : GovernanceConnectorInterface :=
  set_properties object (visibleProperties category object).

(** A stand-in for lodash's [camelCase], right on the strings listed. *)
Definition example_camelCase (s : string) : string :=
  if decide (s = "account-recovery") then "accountRecovery"
  else if decide (s = "EmailVerification.Enable") then "emailVerificationEnable"
  else s.

(** A provider that knows the label of one property and no hint. *)
Definition example_i18n : I18n :=
  {| i18n_exists := λ key, bool_decide (key =
       "console:manage.features.governanceConnectors.connectorCategories.accountRecovery.connectors.emailVerificationEnable.properties.emailVerificationEnable.label");
     i18n_t := λ key, "Enable email verification" |}.

(** A store with one allow-listed connector, of which one property is
    allow-listed and one is not, and one connector outside the allow-list. *)
Definition example_heap : Heap :=
  <[ 0 := {| connector_id := "YWNjb3VudC1yZWNvdmVyeQ";
             connector_name := "account-recovery";
             connector_category := "Account Management";
             connector_friendlyName := "Account Recovery";
             connector_properties := [
               mkConnectorProperty "Recovery.Question.Password.Enable" "false"
                 "Security question based password recovery" "";
               mkConnectorProperty "Recovery.Notification.Password.Enable" "true"
                 "Notification based password recovery" "" ] |} ]>
  (<[ 1 := {| connector_id := "c3VzcGVuc2lvbi5ub3RpZmljYXRpb24";
              connector_name := "suspension.notification";
              connector_category := "Account Management";
              connector_friendlyName := "Idle Account Suspend";
              connector_properties := [
                mkConnectorProperty "suspension.notification.enable" "false"
                  "Suspend idle user accounts" "" ] |} ]> ∅).

End GovernanceConnectorUtils.

(** ** Alerts and request errors *)

Module Alerts.

(** [AlertLevels] of the core models, of which the code uses two. *)
Inductive AlertLevels := SUCCESS | ERROR.

(** A call [t(key)] or [t(key, { description })] of the translation
    function, kept as the call: the translations are outside the
    repository. *)
Record Translation := mkTranslation {
  t_key : string;
  t_description : option string
}.

Definition t (key : string) : Translation :=
  {| t_key := key; t_description := None |}.

Definition t_with (key description : string) : Translation :=
  {| t_key := key; t_description := Some description |}.

Record AlertInterface := mkAlert {
  alert_description : Translation;
  alert_level : AlertLevels;
  alert_message : Translation
}.

(** The members of an Axios error that the handlers read; an absent member
    is [None]. *)
Record ErrorData := mkErrorData {
  data_code : option string;
  data_description : option string;
  data_detail : option string
}.

Record ErrorResponse := mkErrorResponse {
  response_status : nat;
  response_data : option ErrorData
}.

Record AxiosError := mkAxiosError {
  error_response : option ErrorResponse
}.

(** [!member] for a member that is an object or an array when present. *)
Definition absent {A} (member : option A) : bool :=
  match member with
  | Some _ => false
  | None => true
  end.

(** A string member used as a condition: absent and empty are falsy. *)
Definition truthy (member : option string) : bool :=
  match member with
  | Some text => bool_decide (text ≠ "")
  | None => false
  end.

End Alerts.

(** ** The state of the self-registration component *)

Module UserSelfRegistrationForm.
Import UserSelfRegistration Alerts.

Definition USER_SELF_REGISTRATION_FORM_IDENTIFIER := "userSelfRegistrationForm".

(** The state of the component between two renders. *)
Record ComponentState := mkState {
  editingForm : gmap string bool;
  selfSignUpConfigs : SelfSignUpConfigurationsInterface;
  showConfirmationModal : bool
}.

(** [useState({ [USER_SELF_REGISTRATION_FORM_IDENTIFIER]: false })]. *)
Definition initialEditingForm : gmap string bool :=
  {[ USER_SELF_REGISTRATION_FORM_IDENTIFIER := false ]}.

(** [setEditingForm({ ...editingForm, [formName]: false })]. *)
Definition hideFormEditView (formName : string) (state : ComponentState)
  : ComponentState :=
  {| editingForm := <[formName := false]> (editingForm state);
     selfSignUpConfigs := selfSignUpConfigs state;
     showConfirmationModal := showConfirmationModal state |}.

(** [setEditingForm({ ...editingForm, [formName]: true })]. *)
Definition showFormEditView (formName : string) (state : ComponentState)
  : ComponentState :=
  {| editingForm := <[formName := true]> (editingForm state);
     selfSignUpConfigs := selfSignUpConfigs state;
     showConfirmationModal := showConfirmationModal state |}.

Definition handleSubmit (state : ComponentState) : ComponentState :=
  {| editingForm := editingForm state;
     selfSignUpConfigs := selfSignUpConfigs state;
     showConfirmationModal := true |}.

Definition handleConfirmationModalClose (state : ComponentState)
  : ComponentState :=
  {| editingForm := editingForm state;
     selfSignUpConfigs := selfSignUpConfigs state;
     showConfirmationModal := false |}.

(** [editingForm[USER_SELF_REGISTRATION_FORM_IDENTIFIER] ? <EditSection> : null]:
    whether the edit section is rendered; an absent member is falsy. *)
Definition showUserSelfRegistrationView (state : ComponentState) : bool :=
  default false (editingForm state !! USER_SELF_REGISTRATION_FORM_IDENTIFIER).

Definition updateConfigurations : string :=
  "views:components.serverConfigs.selfRegistration.notifications.updateConfigurations.".

(** The handler of [.catch] in [saveSelfRegistrationConfigs]: the alert it
    dispatches. *)
Definition saveErrorAlert (error : AxiosError) : AlertInterface :=
  match error_response error with
  | None =>
      {| alert_description := t (updateConfigurations +:+ "error.description");
         alert_level := ERROR;
         alert_message := t (updateConfigurations +:+ "error.message") |}
  | Some response =>
      if decide (response_status response = 401) then
        {| alert_description := t (updateConfigurations +:+ "error.description");
           alert_level := ERROR;
           alert_message := t (updateConfigurations +:+ "error.message") |}
      else if truthy (response_data response ≫= data_detail) then
        {| alert_description :=
             t_with (updateConfigurations +:+ "error.description")
               (default "" (response_data response ≫= data_detail));
           alert_level := ERROR;
           alert_message := t (updateConfigurations +:+ "error.message") |}
      else
        {| alert_description := t (updateConfigurations +:+ "genericError.description");
           alert_level := ERROR;
           alert_message := t (updateConfigurations +:+ "genericError.message") |}
  end.

(** What one run of [saveSelfRegistrationConfigs] does. *)
Record SaveRun := mkSaveRun {
  run_data : PatchCallData;        (* the argument of [updateSelfSignUpConfigurations] *)
  run_alert : AlertInterface;      (* the alert dispatched *)
  run_state : ComponentState       (* the state once the promise has settled *)
}.

(** [saveSelfRegistrationConfigs], on a request that is fulfilled
    ([outcome = None]) or rejected with an error. *)
Definition saveSelfRegistrationConfigs (state : ComponentState)
  (outcome : option AxiosError) : SaveRun :=
  let data := getSelfSignUpPatchCallData (selfSignUpConfigs state) in
  match outcome with
  | None =>
      {| run_data := data;
         run_alert :=
           {| alert_description := t (updateConfigurations +:+ "success.description");
              alert_level := SUCCESS;
              alert_message := t (updateConfigurations +:+ "success.message") |};
         run_state :=
           hideFormEditView USER_SELF_REGISTRATION_FORM_IDENTIFIER
             (handleConfirmationModalClose state) |}
  | Some error =>
      {| run_data := data;
         run_alert := saveErrorAlert error;
         run_state := state |}
  end.

End UserSelfRegistrationForm.

(** ** Inviting a user of the parent organization *)

Module InviteParentOrgUser.
Import Alerts.

(** The members of [RolesInterface] that the component reads. *)
Record RolesAudience := mkAudience {
  audience_display : string;
  audience_type : string
}.

Record RolesInterface := mkRole {
  role_id : string;
  role_displayName : string;
  role_audience : RolesAudience
}.

(** The answer of [useRolesList]; [Resources] may be absent. *)
Record RolesList := mkRolesList {
  Resources : option (list RolesInterface)
}.

Record RolesAutoCompleteOption := mkOption {
  option_key : string;
  option_label : string;
  option_role : RolesInterface
}.

(** An entry of the roles field.  The field is declared [freeSolo] and
    [multipleValues]: an entry is one of the options offered, or the text
    the user typed, a string. *)
Inductive RoleEntry :=
| Selected (option : RolesAutoCompleteOption)
| FreeSolo (text : string).

(** The values of the form; a field that was never filled is absent. *)
Record InviteParentOrgUserFormValuesInterface := mkValues {
  values_username : option string;
  values_roles : option (list RoleEntry)
}.

Record InviteParentOrgUserFormErrorsInterface := mkErrors {
  errors_username : option Translation;
  errors_roles : option Translation
}.

Record UserInviteInterface := mkInvite {
  invite_roles : option (list string);
  invite_username : option string
}.

(** [role.role.id]: on a string, [role.role] is [undefined], and reading
    [id] on it throws. *)
Definition entry_role_id (role : RoleEntry) : completion string :=
  match role with
  | Selected option => Normal (role_id (option_role option))
  | FreeSolo _ => Throw (TypeError "id")
  end.

(** [array.map(callback)] for a callback that may throw: the first throw
    ends the call. *)
Fixpoint array_map {A B} (callback : A → completion B) (array : list A)
  : completion (list B) :=
  match array with
  | [] => Normal []
  | element :: rest =>
      mapped ← callback element;
      others ← array_map callback rest;
      mret (mapped :: others)
  end.

(** [isEmpty] of lodash on an array that may be [undefined]. *)
Definition isEmpty {A} (array : option (list A)) : bool :=
  match array with
  | Some (_ :: _) => false
  | _ => true
  end.

(** The memoised [rolesAutocompleteOptions]; [None] is [undefined], the
    value of an optional chain on an absent array. *)
Definition rolesAutocompleteOptions (allowedRoles : option RolesList)
  : option (list RolesAutoCompleteOption) :=
  if isEmpty (allowedRoles ≫= Resources) then Some []
  else
    (λ roles,
       map (λ role, {| option_key := role_id role;
                       option_label := role_displayName role;
                       option_role := role |})
           (filter (λ role, audience_display (role_audience role) ≠ "Console")
                   roles))
    <$> (allowedRoles ≫= Resources).

(** What the component does, in the order it does it. *)
Inductive Event :=
| SetIsSubmitting (isSubmitting : bool)
| SendParentOrgUserInvite (invite : UserInviteInterface)
| Dispatch (alert : AlertInterface)
| OnUserInviteSuccess
| CloseWizard.

Section Handlers.

(** [UsersConstants.ERROR_COLLABORATOR_USER_LIMIT_REACHED], declared
    outside the sources at hand. *)
Variable ERROR_COLLABORATOR_USER_LIMIT_REACHED : string.

Definition sendInvite : string :=
  "console:manage.features.invite.notifications.sendInvite.".

Definition handleParentOrgUserInviteError (error : AxiosError) : list Event :=
  match error_response error with
  | None =>
      [ Dispatch {| alert_description := t (sendInvite +:+ "error.description");
                    alert_level := ERROR;
                    alert_message := t (sendInvite +:+ "error.message") |} ]
  | Some response =>
      if decide (response_status response = 401) then
        [ Dispatch {| alert_description := t (sendInvite +:+ "error.description");
                      alert_level := ERROR;
                      alert_message := t (sendInvite +:+ "error.message") |} ]
      else if bool_decide (response_status response = 403) &&
              bool_decide (response_data response ≫= data_code =
                           Some ERROR_COLLABORATOR_USER_LIMIT_REACHED) then
        [ Dispatch {| alert_description :=
                        t "extensions:manage.invite.notifications.sendInvite.limitReachError.description";
                      alert_level := ERROR;
                      alert_message :=
                        t "extensions:manage.invite.notifications.sendInvite.limitReachError.message" |} ]
      else if truthy (response_data response ≫= data_description) then
        [ Dispatch {| alert_description :=
                        t_with (sendInvite +:+ "error.description")
                          (default "" (response_data response ≫= data_description));
                      alert_level := ERROR;
                      alert_message := t (sendInvite +:+ "error.message") |} ]
      else
        [ Dispatch {| alert_description := t (sendInvite +:+ "genericError.description");
                      alert_level := ERROR;
                      alert_message := t (sendInvite +:+ "genericError.message") |} ]
  end.

(** [inviteParentOrgUser]: [values] may be absent, [onUserInviteSuccess]
    may not be given, and the request is fulfilled ([outcome = None]) or
    rejected with an error.  The invitation is built first, which throws on
    an entry that is not an option; then come the events, the handlers of
    [.then], [.catch] and [.finally] running in this order. *)
Definition inviteParentOrgUser
  (onUserInviteSuccess : bool)
  (values : option InviteParentOrgUserFormValuesInterface)
  (outcome : option AxiosError) : completion (list Event) :=
  roles ← match values ≫= values_roles with
          | Some roles =>
              identifiers ← array_map entry_role_id roles;
              mret (Some identifiers)
          | None => Normal None
          end;
  let invite :=
    {| invite_roles := roles;
       invite_username := values ≫= values_username |} in
  mret ([ SetIsSubmitting true; SendParentOrgUserInvite invite ] ++
        match outcome with
        | None =>
            [ Dispatch {| alert_description := t (sendInvite +:+ "success.description");
                          alert_level := SUCCESS;
                          alert_message := t (sendInvite +:+ "success.message") |} ] ++
            (if onUserInviteSuccess then [ OnUserInviteSuccess ] else []) ++
            [ CloseWizard ]
        | Some error => handleParentOrgUserInviteError error
        end ++
        [ CloseWizard; SetIsSubmitting false ]).

Definition validateInviteParentOrgUserForm
  (values : InviteParentOrgUserFormValuesInterface)
  : InviteParentOrgUserFormErrorsInterface :=
  let errors := {| errors_roles := None; errors_username := None |} in
  let errors :=
    if negb (truthy (values_username values)) then
      {| errors_roles := errors_roles errors;
         errors_username :=
           Some (t "console:manage.features.parentOrgInvitations.addUserWizard.username.validations.required") |}
    else errors in
  let errors :=
    if absent (values_roles values) || isEmpty (values_roles values) then
      {| errors_roles :=
           Some (t "console:manage.features.parentOrgInvitations.addUserWizard.roles.validations.required");
         errors_username := errors_username errors |}
    else errors in
  errors.

End Handlers.

(** The alerts among the events. *)
Definition alerts (events : list Event) : list AlertInterface :=
  omap (λ event, match event with Dispatch alert => Some alert | _ => None end)
       events.

(** How many times the wizard is closed. *)
Definition closings (events : list Event) : nat :=
  length (omap (λ event, match event with CloseWizard => Some () | _ => None end)
               events).

(** The invitations sent. *)
Definition invitations (events : list Event) : list UserInviteInterface :=
  omap (λ event, match event with
                 | SendParentOrgUserInvite invite => Some invite
                 | _ => None
                 end)
       events.

(** The roles that may be offered: those whose audience is not the
    Console. *)
Definition offered (role : RolesInterface) : Prop :=
  audience_display (role_audience role) ≠ "Console".

End InviteParentOrgUser.

(** ** Properties of the self-registration property mapper *)

Module SelfRegistrationProofs.
Import UserSelfRegistration.

Lemma flagKeys_elem key :
  key ∈ flagKeys ↔
  key = SELF_REGISTRATION_ENABLE ∨ key = ACCOUNT_LOCK_ON_CREATION ∨
  key = NOTIFICATION_INTERNALLY_MANAGED ∨ key = RE_CAPTCHA.
Proof. unfold flagKeys. rewrite !elem_of_cons, elem_of_nil. tauto. Qed.

Lemma checkboxCallback_spec values q :
  checkboxCallback values q =
  values ++ (if decide (selects q) then [name q] else []).
Proof.
  destruct q as [n v]. unfold checkboxCallback, selects, push. simpl.
  destruct (decide (v = "true")) as [->|Hv].
  - repeat (match goal with |- context [decide ?P] => destruct (decide P) end);
      subst; simpl; try discriminate;
      rewrite ?app_nil_r; try reflexivity;
      match goal with
      | H : ¬ (_ ∈ flagKeys ∧ _) |- _ =>
          exfalso; apply H; split; [apply flagKeys_elem; auto | done]
      | H : _ ∈ flagKeys ∧ _ |- _ =>
          destruct H as [H _]; apply flagKeys_elem in H;
          destruct H as [?|[?|[?|?]]]; congruence
      end.
  - repeat (match goal with |- context [decide ?P] => destruct (decide P) end);
      rewrite ?app_nil_r; try reflexivity.
    all: match goal with H : _ ∧ _ |- _ => destruct H; done end.
Qed.

Lemma fold_checkboxCallback l values :
  fold_left checkboxCallback l values =
  values ++ map name (filter selects l).
Proof.
  revert values. induction l as [|q l IH]; intros values; simpl.
  - by rewrite app_nil_r.
  - rewrite IH, checkboxCallback_spec, filter_cons.
    destruct (decide (selects q)); simpl.
    + by rewrite <- app_assoc.
    + by rewrite app_nil_r.
Qed.

Lemma checkbox_values_filter data :
  getSelfRegistrationCheckboxValues data =
  map name (filter selects (properties data)).
Proof. unfold getSelfRegistrationCheckboxValues. apply fold_checkboxCallback. Qed.

Lemma checkbox_values_elem data key :
  key ∈ getSelfRegistrationCheckboxValues data ↔
  key ∈ flagKeys ∧
  ∃ q, q ∈ properties data ∧ name q = key ∧ value q = "true".
Proof.
  rewrite checkbox_values_filter, list_elem_of_fmap. split.
  - intros (q & -> & Hq). apply list_elem_of_filter in Hq as [[Hk Hv] Hin].
    split; [done | by exists q].
  - intros (Hk & q & Hin & <- & Hv). exists q. split; [done |].
    apply list_elem_of_filter. by split.
Qed.

Lemma find_by_name_first key array property :
  first_named key array property → find_by_name key array = Some property.
Proof.
  intros (before & after & -> & Hname & Hbefore). unfold find_by_name.
  induction Hbefore as [|q before Hq _ IH]; simpl.
  - by rewrite bool_decide_eq_true_2.
  - by rewrite bool_decide_eq_false_2.
Qed.

Lemma find_by_name_Some key array property :
  find_by_name key array = Some property →
  property ∈ array ∧ name property = key.
Proof.
  unfold find_by_name. intros H. apply find_some in H as [Hin Hname].
  apply bool_decide_eq_true in Hname. split; [by apply list_elem_of_In | done].
Qed.

Lemma find_by_name_None key array :
  (∀ q, q ∈ array → name q ≠ key) → find_by_name key array = None.
Proof.
  intros Hno. unfold find_by_name.
  destruct (List.find _ array) as [q|] eqn:Hfind; [|done].
  apply find_by_name_Some in Hfind as [Hin Hname]. by destruct (Hno q).
Qed.

Lemma occurs_once_unique key array :
  occurs_once key array →
  ∃ property, find_by_name key array = Some property ∧
    ∀ q, q ∈ array → name q = key → q = property.
Proof.
  unfold occurs_once. intros Hlen.
  destruct (filter (λ q, name q = key) array) as [|x [|y rest]] eqn:Hf;
    simpl in Hlen; try lia.
  assert (Hall : ∀ q, q ∈ array → name q = key → q = x).
  { intros q Hin Hname.
    assert (q ∈ filter (λ q, name q = key) array) as Hq
      by (apply list_elem_of_filter; done).
    rewrite Hf in Hq. by apply list_elem_of_singleton in Hq. }
  assert (Hx : x ∈ array ∧ name x = key).
  { assert (x ∈ filter (λ q, name q = key) array) as Hq
      by (rewrite Hf; apply list_elem_of_here).
    apply list_elem_of_filter in Hq. tauto. }
  destruct (find_by_name key array) as [p|] eqn:Hfind.
  - apply find_by_name_Some in Hfind as [Hin Hname].
    rewrite (Hall p Hin Hname). eauto.
  - exfalso. destruct Hx as [Hin Hname]. unfold find_by_name in Hfind.
    eapply find_none in Hfind; [|by apply list_elem_of_In].
    simpl in Hfind. by rewrite bool_decide_eq_true_2 in Hfind.
Qed.

Lemma declaredKeys_NoDup : NoDup declaredKeys.
Proof. apply (bool_decide_unpack (NoDup declaredKeys)). vm_compute. exact I. Qed.

Lemma flag_includes values key :
  flag (includes values key) =
  if decide (key ∈ values) then "true" else "false".
Proof.
  unfold flag, includes. destruct (decide (key ∈ values)) as [H|H].
  - by rewrite bool_decide_eq_true_2.
  - by rewrite bool_decide_eq_false_2.
Qed.

(** C10: every element of the list built by
    [getSelfRegistrationCheckboxValues] is one of the four flag keys, and
    the list is the names of the input properties that carry a flag key
    with value [true], in input order and once per occurrence. *)
Theorem C10_checkbox_values_follow_input (data : SelfSignUpResponse) :
  Forall (λ key, key ∈ flagKeys) (getSelfRegistrationCheckboxValues data) ∧
  getSelfRegistrationCheckboxValues data =
    map name (filter selects (properties data)).
Proof.
  split; [|apply checkbox_values_filter].
  apply Forall_forall. intros key Hkey.
  by apply checkbox_values_elem in Hkey as [Hflag _].
Qed.

(** The order is the input's, not the declared one. *)
Example checkbox_values_input_order :
  getSelfRegistrationCheckboxValues
    {| properties := [ mkProperty RE_CAPTCHA "true";
                       mkProperty SELF_REGISTRATION_ENABLE "true" ] |}
  = [ RE_CAPTCHA; SELF_REGISTRATION_ENABLE ].
Proof. reflexivity. Qed.

(** A key that occurs twice with value [true] is pushed twice. *)
Example checkbox_values_duplicates :
  getSelfRegistrationCheckboxValues
    {| properties := [ mkProperty SELF_REGISTRATION_ENABLE "true";
                       mkProperty SELF_REGISTRATION_ENABLE "true" ] |}
  = [ SELF_REGISTRATION_ENABLE; SELF_REGISTRATION_ENABLE ].
Proof. reflexivity. Qed.

(** C7: a flag key is in [checkboxValues] iff some input property has that
    name and the value [true]; and when each scalar key has a first
    property of that name, the handler returns the view model made of the
    checkbox list and of the values of those first properties. *)
Theorem C7_toViewModel_fields (response : SelfSignUpResponse) :
  (∀ key, key ∈ flagKeys →
     key ∈ getSelfRegistrationCheckboxValues response ↔
     ∃ q, q ∈ properties response ∧ name q = key ∧ value q = "true") ∧
  (∀ p1 p2 p3,
     first_named VERIFICATION_CODE_EXPIRY_TIME (properties response) p1 →
     first_named SMS_OTP_EXPIRY_TIME (properties response) p2 →
     first_named CALLBACK_REGEX (properties response) p3 →
     toViewModel response =
     Normal {| checkboxValues := getSelfRegistrationCheckboxValues response;
               verificationCodeExpiryTime := value p1;
               smsOTPExpiryTime := value p2;
               callbackRegex := value p3 |}).
Proof.
  split.
  - intros key Hkey. rewrite checkbox_values_elem. tauto.
  - intros p1 p2 p3 H1 H2 H3. unfold toViewModel.
    rewrite (find_by_name_first _ _ _ H1), (find_by_name_first _ _ _ H2),
      (find_by_name_first _ _ _ H3).
    reflexivity.
Qed.

Lemma C7_toViewModel_fields_witness :
  toViewModel example_response =
  Normal {| checkboxValues := [ "SelfRegistration.Enable" ];
            verificationCodeExpiryTime := "1440";
            smsOTPExpiryTime := "1";
            callbackRegex := ".*" |}.
Proof.
  apply (proj2 (C7_toViewModel_fields example_response)
           (mkProperty VERIFICATION_CODE_EXPIRY_TIME "1440")
           (mkProperty SMS_OTP_EXPIRY_TIME "1")
           (mkProperty CALLBACK_REGEX ".*")).
  - exists [ mkProperty SELF_REGISTRATION_ENABLE "true";
             mkProperty ACCOUNT_LOCK_ON_CREATION "false" ],
           [ mkProperty SMS_OTP_EXPIRY_TIME "1"; mkProperty CALLBACK_REGEX ".*" ].
    split; [reflexivity | split; [reflexivity |]].
    repeat constructor; simpl; discriminate.
  - exists [ mkProperty SELF_REGISTRATION_ENABLE "true";
             mkProperty ACCOUNT_LOCK_ON_CREATION "false";
             mkProperty VERIFICATION_CODE_EXPIRY_TIME "1440" ],
           [ mkProperty CALLBACK_REGEX ".*" ].
    split; [reflexivity | split; [reflexivity |]].
    repeat constructor; simpl; discriminate.
  - exists [ mkProperty SELF_REGISTRATION_ENABLE "true";
             mkProperty ACCOUNT_LOCK_ON_CREATION "false";
             mkProperty VERIFICATION_CODE_EXPIRY_TIME "1440";
             mkProperty SMS_OTP_EXPIRY_TIME "1" ], [].
    split; [reflexivity | split; [reflexivity |]].
    repeat constructor; simpl; discriminate.
Defined.

(** The entries of the PATCH body. *)
Lemma patch_body_entries (configs : SelfSignUpConfigurationsInterface) :
  let body := patch_properties (getSelfSignUpPatchCallData configs) in
  patch_operation (getSelfSignUpPatchCallData configs) = "UPDATE" ∧
  map name body = declaredKeys ∧
  NoDup (map name body) ∧
  (∀ key, key ∈ flagKeys →
     mkProperty key (if decide (key ∈ checkboxValues configs)
                     then "true" else "false") ∈ body) ∧
  mkProperty VERIFICATION_CODE_EXPIRY_TIME
             (verificationCodeExpiryTime configs) ∈ body ∧
  mkProperty SMS_OTP_EXPIRY_TIME (smsOTPExpiryTime configs) ∈ body ∧
  mkProperty CALLBACK_REGEX (callbackRegex configs) ∈ body.
Proof.
  simpl. repeat split.
  - apply declaredKeys_NoDup.
  - intros key Hkey. rewrite !flag_includes.
    apply flagKeys_elem in Hkey as [-> | [-> | [-> | ->]]];
      rewrite !elem_of_cons; tauto.
  - rewrite !elem_of_cons; tauto.
  - rewrite !elem_of_cons; tauto.
  - rewrite !elem_of_cons; tauto.
Qed.

(** C6: for every view model the PATCH body has one entry per declared
    key, in the declared order; a flag entry is [true] iff its key is in
    [checkboxValues] and [false] otherwise; a scalar entry carries the
    field of the view model as it is. *)
Theorem C6_patch_call_data (configs : SelfSignUpConfigurationsInterface) :
  let body := patch_properties (getSelfSignUpPatchCallData configs) in
  patch_operation (getSelfSignUpPatchCallData configs) = "UPDATE" ∧
  map name body = declaredKeys ∧
  NoDup (map name body) ∧
  (∀ key, key ∈ flagKeys →
     mkProperty key (if decide (key ∈ checkboxValues configs)
                     then "true" else "false") ∈ body) ∧
  mkProperty VERIFICATION_CODE_EXPIRY_TIME
             (verificationCodeExpiryTime configs) ∈ body ∧
  mkProperty SMS_OTP_EXPIRY_TIME (smsOTPExpiryTime configs) ∈ body ∧
  mkProperty CALLBACK_REGEX (callbackRegex configs) ∈ body.
Proof. apply patch_body_entries. Qed.

(** C1: when each scalar key names exactly one input property, the handler
    returns a view model, and the PATCH body built from it has the declared
    keys; a flag entry is [true] when some input property has that name and
    the value [true], and [false] when none has; every input property with
    a scalar key is an entry of the body, name and value. *)
Theorem C1_round_trip (response : SelfSignUpResponse) :
  occurs_once VERIFICATION_CODE_EXPIRY_TIME (properties response) →
  occurs_once SMS_OTP_EXPIRY_TIME (properties response) →
  occurs_once CALLBACK_REGEX (properties response) →
  ∃ configs,
    toViewModel response = Normal configs ∧
    let body := patch_properties (getSelfSignUpPatchCallData configs) in
    map name body = declaredKeys ∧
    (∀ key, key ∈ flagKeys →
       (∃ q, q ∈ properties response ∧ name q = key ∧ value q = "true") →
       mkProperty key "true" ∈ body) ∧
    (∀ key, key ∈ flagKeys →
       ¬ (∃ q, q ∈ properties response ∧ name q = key ∧ value q = "true") →
       mkProperty key "false" ∈ body) ∧
    (∀ q, q ∈ properties response → name q ∈ scalarKeys → q ∈ body).
Proof.
  intros H1 H2 H3.
  apply occurs_once_unique in H1 as (p1 & Hf1 & Hu1).
  apply occurs_once_unique in H2 as (p2 & Hf2 & Hu2).
  apply occurs_once_unique in H3 as (p3 & Hf3 & Hu3).
  eexists. split.
  { unfold toViewModel. rewrite Hf1, Hf2, Hf3. reflexivity. }
  pose proof (patch_body_entries
    {| checkboxValues := getSelfRegistrationCheckboxValues response;
       verificationCodeExpiryTime := value p1;
       smsOTPExpiryTime := value p2;
       callbackRegex := value p3 |}) as (_ & Hnames & _ & Hflags & Hs1 & Hs2 & Hs3).
  cbv zeta. split; [exact Hnames |]. split; [|split].
  - intros key Hkey Hex. specialize (Hflags key Hkey). simpl in Hflags.
    rewrite decide_True in Hflags; [done |].
    apply checkbox_values_elem. by split.
  - intros key Hkey Hnex. specialize (Hflags key Hkey). simpl in Hflags.
    rewrite decide_False in Hflags; [done |].
    intros Hin. apply checkbox_values_elem in Hin as [_ Hex]. by apply Hnex.
  - intros q Hq Hscalar. unfold scalarKeys in Hscalar.
    apply find_by_name_Some in Hf1 as [_ Hn1].
    apply find_by_name_Some in Hf2 as [_ Hn2].
    apply find_by_name_Some in Hf3 as [_ Hn3].
    rewrite !elem_of_cons, elem_of_nil in Hscalar.
    destruct Hscalar as [Hk|[Hk|[Hk|[]]]].
    + rewrite (Hu1 q Hq Hk). destruct p1 as [n v]; simpl in *; subst n.
      exact Hs1.
    + rewrite (Hu2 q Hq Hk). destruct p2 as [n v]; simpl in *; subst n.
      exact Hs2.
    + rewrite (Hu3 q Hq Hk). destruct p3 as [n v]; simpl in *; subst n.
      exact Hs3.
Qed.

Lemma C1_round_trip_witness :
  ∃ configs,
    toViewModel example_response = Normal configs ∧
    patch_properties (getSelfSignUpPatchCallData configs) =
    [ mkProperty SELF_REGISTRATION_ENABLE "true";
      mkProperty ACCOUNT_LOCK_ON_CREATION "false";
      mkProperty NOTIFICATION_INTERNALLY_MANAGED "false";
      mkProperty RE_CAPTCHA "false";
      mkProperty VERIFICATION_CODE_EXPIRY_TIME "1440";
      mkProperty SMS_OTP_EXPIRY_TIME "1";
      mkProperty CALLBACK_REGEX ".*" ].
Proof.
  destruct (C1_round_trip example_response) as (configs & Hvm & _);
    [reflexivity | reflexivity | reflexivity |].
  exists configs. split; [exact Hvm |].
  vm_compute in Hvm. injection Hvm as <-. reflexivity.
Defined.

(** C4, as the code has it: when a required scalar key names no input
    property, the handler throws the [TypeError] of reading [value] on
    [undefined], whichever key is absent, and builds no view model. *)
Theorem C4_missing_scalar_throws_TypeError
  (response : SelfSignUpResponse) (key : string) :
  key ∈ scalarKeys →
  (∀ q, q ∈ properties response → name q ≠ key) →
  toViewModel response = Throw (TypeError "value").
Proof.
  intros Hkey Hno. apply find_by_name_None in Hno.
  unfold scalarKeys in Hkey. rewrite !elem_of_cons, elem_of_nil in Hkey.
  unfold toViewModel.
  destruct Hkey as [-> | [-> | [-> | []]]]; rewrite Hno;
    repeat (destruct (find_by_name _ _); simpl; try reflexivity).
Qed.

Lemma C4_missing_scalar_throws_TypeError_witness :
  toViewModel {| properties := [ mkProperty SELF_REGISTRATION_ENABLE "true" ] |}
  = Throw (TypeError "value").
Proof.
  apply (C4_missing_scalar_throws_TypeError _ CALLBACK_REGEX).
  - unfold scalarKeys. rewrite !elem_of_cons. tauto.
  - intros q Hq. apply list_elem_of_singleton in Hq as ->. discriminate.
Defined.

(** C4 as stated fails: on the empty response the error thrown is not a
    [MissingPropertyError]. *)
Lemma C4_no_MissingPropertyError :
  (∀ q, q ∈ properties {| properties := [] |} →
        name q ≠ VERIFICATION_CODE_EXPIRY_TIME) ∧
  ¬ ∃ e, toViewModel {| properties := [] |} = Throw e ∧
         error_name e = "MissingPropertyError".
Proof.
  split.
  - intros q Hq. by apply elem_of_nil in Hq.
  - intros (e & He & Hname). vm_compute in He. injection He as <-.
    discriminate Hname.
Qed.

End SelfRegistrationProofs.

(** ** Properties of the governance connector utilities *)

Module GovernanceConnectorProofs.
Import GovernanceConnectorUtils.

(** *** Property names *)

Lemma split_not_nil sep s : split sep s ≠ [].
Proof.
  destruct s as [|c rest]; simpl; [done |].
  destruct (decide (c = sep)); [done |].
  by destruct (split sep rest).
Qed.

Lemma join_cons_char sep c piece pieces :
  join sep (String c piece :: pieces) = String c (join sep (piece :: pieces)).
Proof. by destruct pieces. Qed.

Lemma join_split sep to s :
  join (String to EmptyString) (split sep s) = replace_all sep to s.
Proof.
  induction s as [|c rest IH]; simpl; [done |].
  destruct (decide (c = sep)) as [->|Hc].
  - pose proof (split_not_nil sep rest) as Hne.
    destruct (split sep rest) as [|piece pieces] eqn:Hsplit; [done |].
    simpl in *. by rewrite IH.
  - pose proof (split_not_nil sep rest) as Hne.
    destruct (split sep rest) as [|piece pieces] eqn:Hsplit; [done |].
    rewrite join_cons_char. by rewrite IH.
Qed.

Lemma replace_all_back (s : string) :
  replace_all "-" "." (replace_all "." "-" s) = replace_all "-" "." s.
Proof.
  induction s as [|c rest IH]; simpl; [done |]. rewrite IH. f_equal.
  destruct (decide (c = "."%char)) as [->|Hdot]; [done |].
  reflexivity.
Qed.

Lemma replace_all_absent from to s :
  ¬ occurs from s → replace_all from to s = s.
Proof.
  induction s as [|c rest IH]; simpl; [done |]. intros Hno.
  rewrite IH by tauto. destruct (decide (c = from)); [tauto | done].
Qed.

Lemma decode_encode (name : string) :
  decodeConnectorPropertyName (Some (encodeConnectorPropertyName name)) =
  Some (replace_all "-" "." name).
Proof.
  unfold decodeConnectorPropertyName, encodeConnectorPropertyName.
  by rewrite !join_split, replace_all_back.
Qed.

(** C9: decoding an encoded name gives the name back when it holds no
    ["-"]; in general it gives the name with every ["-"] turned into ["."],
    which differs from the name for [a-b]. *)
Theorem C9_decode_encode_round_trip :
  (∀ name : string, ¬ occurs "-" name →
     decodeConnectorPropertyName (Some (encodeConnectorPropertyName name)) =
     Some name) ∧
  (∀ name : string,
     decodeConnectorPropertyName (Some (encodeConnectorPropertyName name)) =
     Some (replace_all "-" "." name)) ∧
  decodeConnectorPropertyName (Some (encodeConnectorPropertyName "a-b")) =
    Some "a.b" ∧
  decodeConnectorPropertyName (Some (encodeConnectorPropertyName "a-b")) ≠
    Some "a-b".
Proof.
  split; [|split; [|split]].
  - intros name Hno. by rewrite decode_encode, replace_all_absent.
  - apply decode_encode.
  - reflexivity.
  - discriminate.
Qed.

Lemma C9_decode_encode_round_trip_witness :
  decodeConnectorPropertyName
    (Some (encodeConnectorPropertyName "EmailVerification.Enable")) =
  Some "EmailVerification.Enable".
Proof.
  apply (proj1 C9_decode_encode_round_trip "EmailVerification.Enable").
  simpl. intros H. repeat (destruct H as [H|H]; [discriminate H |]). exact H.
Defined.

(** *** Labels and hints *)

Lemma append_inv_head (p x y : string) : p +:+ x = p +:+ y → x = y.
Proof.
  induction p as [|c p IH]; simpl; intros H; [done |].
  injection H as H. by apply IH.
Qed.

(** A string without ["."] followed by a ["."] is read back in one way. *)
Lemma append_dot_inv (a a' r r' : string) :
  ¬ occurs "." a → ¬ occurs "." a' →
  a +:+ String "." r = a' +:+ String "." r' → a = a' ∧ r = r'.
Proof.
  revert a'. induction a as [|c a IH]; intros [|c' a']; simpl;
    intros Hno Hno' Heq.
  - by injection Heq as ->.
  - injection Heq as <- _. tauto.
  - injection Heq as -> _. tauto.
  - injection Heq as -> Heq.
    destruct (IH a') as [-> ->]; [tauto | tauto | done | done].
Qed.

Lemma label_key_inv (cc cn cc' cn' suffix : string) :
  ¬ occurs "." cc → ¬ occurs "." cc' → ¬ occurs "." cn → ¬ occurs "." cn' →
  "console:manage.features.governanceConnectors.connectorCategories." +:+
    cc' +:+ ".connectors." +:+ cn' +:+ ".properties." +:+ cn' +:+ suffix =
  "console:manage.features.governanceConnectors.connectorCategories." +:+
    cc +:+ ".connectors." +:+ cn +:+ ".properties." +:+ cn +:+ suffix →
  cc' = cc ∧ cn' = cn.
Proof.
  intros Hcc Hcc' Hcn Hcn' Heq. apply append_inv_head in Heq.
  apply (append_dot_inv cc' cc
           ("connectors." +:+ cn' +:+ ".properties." +:+ cn' +:+ suffix)
           ("connectors." +:+ cn +:+ ".properties." +:+ cn +:+ suffix))
    in Heq as [-> Heq]; [|done|done].
  split; [done |]. apply append_inv_head in Heq.
  by apply (append_dot_inv cn' cn
              ("properties." +:+ cn' +:+ suffix)
              ("properties." +:+ cn +:+ suffix)) in Heq as [-> _].
Qed.

(** C8: the key that [resolveFieldLabel] looks up is the fixed prefix,
    the camel-cased category, [.connectors.], the camel-cased name,
    [.properties.], the camel-cased name again and [.label]; the key of
    [resolveFieldHint] ends in [.hint] instead.  Each function returns the
    provider's string for its key when the provider has the key, and the
    fallback as it is when not.  The key is a function of the camel-cased
    category and name, and when these hold no ["."] it determines them. *)
Theorem C8_resolve_label_and_hint
  (camelCase : string → string) (instance : I18n)
  (category name fallback : string) :
  let labelKey :=
    "console:manage.features.governanceConnectors.connectorCategories." +:+
    camelCase category +:+ ".connectors." +:+ camelCase name +:+
    ".properties." +:+ camelCase name +:+ ".label" in
  let hintKey :=
    "console:manage.features.governanceConnectors.connectorCategories." +:+
    camelCase category +:+ ".connectors." +:+ camelCase name +:+
    ".properties." +:+ camelCase name +:+ ".hint" in
  resolveFieldLabel camelCase instance category name fallback =
    (if i18n_exists instance labelKey then i18n_t instance labelKey
     else fallback) ∧
  resolveFieldHint camelCase instance category name fallback =
    (if i18n_exists instance hintKey then i18n_t instance hintKey
     else fallback) ∧
  (i18n_exists instance labelKey = true →
     resolveFieldLabel camelCase instance category name fallback =
     i18n_t instance labelKey) ∧
  (i18n_exists instance labelKey = false →
     resolveFieldLabel camelCase instance category name fallback = fallback) ∧
  (i18n_exists instance hintKey = true →
     resolveFieldHint camelCase instance category name fallback =
     i18n_t instance hintKey) ∧
  (i18n_exists instance hintKey = false →
     resolveFieldHint camelCase instance category name fallback = fallback) ∧
  fieldLabelKey camelCase category name = labelKey ∧
  fieldHintKey camelCase category name = hintKey ∧
  (∀ category' name',
     camelCase category' = camelCase category →
     camelCase name' = camelCase name →
     fieldLabelKey camelCase category' name' = labelKey ∧
     fieldHintKey camelCase category' name' = hintKey) ∧
  (∀ category' name',
     ¬ occurs "." (camelCase category) → ¬ occurs "." (camelCase category') →
     ¬ occurs "." (camelCase name) → ¬ occurs "." (camelCase name') →
     fieldLabelKey camelCase category' name' = labelKey ∨
     fieldHintKey camelCase category' name' = hintKey →
     camelCase category' = camelCase category ∧
     camelCase name' = camelCase name).
Proof.
  cbv zeta. unfold resolveFieldLabel, resolveFieldHint.
  unfold fieldLabelKey, fieldHintKey.
  split; [reflexivity |]. split; [reflexivity |].
  split; [by intros -> |]. split; [by intros -> |].
  split; [by intros -> |]. split; [by intros -> |].
  split; [reflexivity |]. split; [reflexivity |]. split.
  - intros category' name' Hcategory Hname. by rewrite Hcategory, Hname.
  - intros category' name' Hcc Hcc' Hcn Hcn' [Heq|Heq];
      by apply label_key_inv in Heq.
Qed.

Lemma C8_resolve_label_and_hint_witness :
  resolveFieldLabel example_camelCase example_i18n
    "account-recovery" "EmailVerification.Enable" "Enable"
  = "Enable email verification" ∧
  resolveFieldHint example_camelCase example_i18n
    "account-recovery" "EmailVerification.Enable" "Enable"
  = "Enable".
Proof.
  pose proof (C8_resolve_label_and_hint example_camelCase example_i18n
    "account-recovery" "EmailVerification.Enable" "Enable")
    as (_ & _ & Hlabel & _ & _ & Hhint & _).
  split.
  - rewrite Hlabel; reflexivity.
  - apply Hhint. reflexivity.
Defined.

(** *** The filter *)

Lemma fold_push_ids (connectors : list GovernanceConnectorForOrgsInterface) ids :
  fold_left (λ ids connector, push ids (org_id connector)) connectors ids =
  ids ++ map org_id connectors.
Proof.
  revert ids. induction connectors as [|c connectors IH]; intros ids; simpl.
  - by rewrite app_nil_r.
  - rewrite IH. unfold push. by rewrite <- app_assoc.
Qed.

Lemma org_id_inj (connectors : list GovernanceConnectorForOrgsInterface) c1 c2 :
  NoDup (map org_id connectors) →
  c1 ∈ connectors → c2 ∈ connectors → org_id c1 = org_id c2 → c1 = c2.
Proof.
  induction connectors as [|c connectors IH]; simpl; intros Hnd H1 H2 Heq.
  - by apply elem_of_nil in H1.
  - apply NoDup_cons in Hnd as [Hfresh Hnd].
    apply elem_of_cons in H1 as [->|H1]; apply elem_of_cons in H2 as [->|H2].
    + done.
    + exfalso. apply Hfresh. rewrite Heq. by apply list_elem_of_fmap_2.
    + exfalso. apply Hfresh. rewrite <- Heq. by apply list_elem_of_fmap_2.
    + by apply IH.
Qed.

(** The properties found for an allow-listed identifier are those the entry
    declares for it. *)
Lemma getGovernanceConnectorsProperties_allowed category id :
  NoDup (allowedIds category) →
  id ∈ allowedIds category →
  ∃ showProperties,
    getGovernanceConnectorsProperties (category_connectors category) id =
      Normal showProperties ∧
    ∀ name, name ∈ showProperties ↔ allowedProperty category id name.
Proof.
  unfold allowedIds, getGovernanceConnectorsProperties, allowedProperty.
  intros Hnd Hid. apply list_elem_of_fmap in Hid as (c & -> & Hc).
  destruct (filter (λ connector, org_id connector = org_id c)
              (category_connectors category)) as [|first others] eqn:Hf.
  - exfalso. assert (c ∈ filter (λ connector, org_id connector = org_id c)
                       (category_connectors category)) as Hin
      by (by apply list_elem_of_filter).
    rewrite Hf in Hin. by apply elem_of_nil in Hin.
  - simpl. eexists. split; [reflexivity |].
    assert (first ∈ filter (λ connector, org_id connector = org_id c)
              (category_connectors category)) as Hfirst
      by (rewrite Hf; apply list_elem_of_here).
    apply list_elem_of_filter in Hfirst as [Hid Hin].
    assert (first = c) as -> by (by apply (org_id_inj _ _ _ Hnd)).
    intros name. rewrite Exists_exists. split.
    + intros Hname. by exists c.
    + intros (c' & Hc' & Hid' & Hname).
      by rewrite <- (org_id_inj _ _ _ Hnd Hc' Hc Hid').
Qed.

Lemma restrict_idemp category object :
  restrict category (restrict category object) = restrict category object.
Proof.
  unfold restrict, set_properties, visibleProperties. simpl. f_equal.
  rewrite list_filter_filter. apply list_filter_iff. tauto.
Qed.

(** What one call of the callback does. *)
Lemma filterCallback_run category connector object (h : Heap) :
  NoDup (allowedIds category) →
  h !! connector = Some object →
  filterCallback (category_connectors category) (allowedIds category) connector h =
  if decide (connector_id object ∈ allowedIds category)
  then (Normal true, <[connector := restrict category object]> h)
  else (Normal false, h).
Proof.
  intros Hnd Hobj. unfold filterCallback, mbind, M_bind, read, includes. simpl.
  rewrite Hobj. destruct (decide (connector_id object ∈ allowedIds category)) as [Hid|Hid].
  - rewrite bool_decide_eq_true_2 by done. rewrite Hobj.
    destruct (getGovernanceConnectorsProperties_allowed _ _ Hnd Hid)
      as (showProperties & -> & Hshow).
    unfold lift, write_properties. rewrite !Hobj. unfold mret, M_ret.
    do 3 f_equal. unfold restrict, visibleProperties. f_equal.
    apply list_filter_iff. intros property. apply Hshow.
  - by rewrite bool_decide_eq_false_2.
Qed.

Lemma retained_insert category (h : Heap) connector object l :
  h !! connector = Some object →
  retained category (<[connector := restrict category object]> h) l ↔
  retained category h l.
Proof.
  intros Hobj. unfold retained.
  destruct (decide (connector = l)) as [->|Hne].
  - by rewrite lookup_insert_eq, Hobj.
  - by rewrite lookup_insert_ne.
Qed.

Lemma live_insert (h : Heap) connector object array :
  live h array → live (<[connector := object]> h) array.
Proof.
  unfold live. intros Hlive. eapply Forall_impl; [exact Hlive |].
  intros l Hl. simpl.
  destruct (decide (connector = l)) as [->|Hne].
  - rewrite lookup_insert_eq. eauto.
  - by rewrite lookup_insert_ne.
Qed.

(** The run of the filter over an array whose elements all refer to
    objects: the result and every cell of the final store. *)
Lemma array_filter_run category array : ∀ h : Heap,
  NoDup (allowedIds category) →
  live h array →
  ∃ h' : Heap,
    array_filter
      (filterCallback (category_connectors category) (allowedIds category))
      array h
    = (Normal (filter (retained category h) array), h') ∧
    ∀ l, h' !! l =
         if decide (l ∈ array ∧ retained category h l)
         then restrict category <$> h !! l else h !! l.
Proof.
  induction array as [|x rest IH]; intros h Hnd Hlive.
  - exists h. split; [reflexivity |]. intros l.
    rewrite decide_False; [done |]. rewrite elem_of_nil. tauto.
  - apply Forall_cons in Hlive as [[object Hobj] Hlive].
    cbn [array_filter]. unfold mbind at 1, M_bind at 1.
    rewrite (filterCallback_run _ _ _ _ Hnd Hobj). rewrite filter_cons.
    destruct (decide (connector_id object ∈ allowedIds category)) as [Hid|Hid].
    + destruct (IH (<[x := restrict category object]> h) Hnd
                  (live_insert _ _ _ _ Hlive)) as (h' & Hrun & Hcells).
      exists h'. split.
      * unfold mbind, M_bind. rewrite Hrun. unfold mret, M_ret.
        rewrite decide_True by (unfold retained; by rewrite Hobj).
        do 3 f_equal. apply list_filter_iff. intros l.
        by apply retained_insert.
      * intros l. rewrite Hcells.
        destruct (decide (x = l)) as [<-|Hne].
        -- rewrite lookup_insert_eq, Hobj. simpl.
           rewrite (decide_True (P := x ∈ x :: rest ∧ _)).
           2:{ split; [apply list_elem_of_here |]. unfold retained. by rewrite Hobj. }
           destruct (decide (x ∈ rest ∧ _)); simpl; [|done].
           by rewrite restrict_idemp.
        -- rewrite lookup_insert_ne by done.
           apply decide_ext. rewrite (retained_insert _ _ _ _ _ Hobj).
           rewrite elem_of_cons. intuition congruence.
    + destruct (IH h Hnd Hlive) as (h' & Hrun & Hcells).
      exists h'. split.
      * unfold mbind, M_bind. rewrite Hrun. unfold mret, M_ret.
        rewrite decide_False; [done |]. unfold retained. by rewrite Hobj.
      * intros l. rewrite Hcells. apply decide_ext.
        rewrite elem_of_cons. split; [tauto |].
        intros [[->|Hin] Hret]; [|tauto].
        exfalso. unfold retained in Hret. by rewrite Hobj in Hret.
Qed.

(** The two entries of the allow-list. *)
Lemma allow_list_entry category :
  category ∈ SHOW_GOVERNANCE_CONNECTORS_FOR_SUBORGS →
  NoDup (allowedIds category) ∧
  head (filter (λ entry, category_id entry = category_id category)
               SHOW_GOVERNANCE_CONNECTORS_FOR_SUBORGS) = Some category.
Proof.
  unfold SHOW_GOVERNANCE_CONNECTORS_FOR_SUBORGS.
  rewrite !elem_of_cons, elem_of_nil. intros [->|[->|[]]].
  - split; [|reflexivity].
    apply (bool_decide_unpack (NoDup _)). vm_compute. exact I.
  - split; [|reflexivity].
    apply (bool_decide_unpack (NoDup _)). vm_compute. exact I.
Qed.

Lemma filter_known_category category array (h : Heap) :
  category ∈ SHOW_GOVERNANCE_CONNECTORS_FOR_SUBORGS →
  filterGovernanceConnectorCategories (category_id category) array h =
  array_filter
    (filterCallback (category_connectors category) (allowedIds category))
    array h.
Proof.
  intros Hentry. apply allow_list_entry in Hentry as [_ Hhead].
  unfold filterGovernanceConnectorCategories, mbind, M_bind, lift.
  rewrite Hhead. rewrite fold_push_ids. reflexivity.
Qed.

Lemma filter_unknown_category governanceCategoryId array (h : Heap) :
  (∀ category, category ∈ SHOW_GOVERNANCE_CONNECTORS_FOR_SUBORGS →
               category_id category ≠ governanceCategoryId) →
  filterGovernanceConnectorCategories governanceCategoryId array h =
  (Throw (TypeError "connectors"), h).
Proof.
  intros Hno. unfold filterGovernanceConnectorCategories, mbind, M_bind, lift.
  destruct (filter _ SHOW_GOVERNANCE_CONNECTORS_FOR_SUBORGS)
    as [|category others] eqn:Hf; [reflexivity |].
  exfalso.
  assert (category ∈ filter
            (λ category, category_id category = governanceCategoryId)
            SHOW_GOVERNANCE_CONNECTORS_FOR_SUBORGS) as Hin
    by (rewrite Hf; apply list_elem_of_here).
  apply list_elem_of_filter in Hin as [Hid Hin]. by apply (Hno category).
Qed.


Lemma filter_not_a_real_category :
  filterGovernanceConnectorCategories "not-a-real-category" [] ∅ =
  (Throw (TypeError "connectors"), ∅).
Proof. reflexivity. Qed.

(** C5: for the identifier of an allow-list entry, the filter returns the
    elements of the input whose object has an allow-listed identifier, in
    input order; the object of each returned element keeps its identifier,
    and its properties are those of the input object whose name the entry
    declares for that identifier, in the input object's order. *)
Theorem C5_filter_keeps_allow_listed
  (category : GovernanceCategoryForOrgsInterface)
  (governanceConnectors : list loc) (h : Heap) :
  category ∈ SHOW_GOVERNANCE_CONNECTORS_FOR_SUBORGS →
  live h governanceConnectors →
  ∃ h' : Heap,
    filterGovernanceConnectorCategories (category_id category)
      governanceConnectors h
    = (Normal (filter (retained category h) governanceConnectors), h') ∧
    ∀ l, l ∈ filter (retained category h) governanceConnectors →
      ∃ object object',
        h !! l = Some object ∧ h' !! l = Some object' ∧
        connector_id object' = connector_id object ∧
        connector_id object' ∈ allowedIds category ∧
        connector_properties object' =
          filter (λ property,
                    allowedProperty category (connector_id object)
                                    (property_name property))
                 (connector_properties object).
Proof.
  intros Hentry Hlive. rewrite filter_known_category by done.
  destruct (allow_list_entry _ Hentry) as [Hnd _].
  destruct (array_filter_run category governanceConnectors h Hnd Hlive)
    as (h' & Hrun & Hcells).
  exists h'. split; [exact Hrun |].
  intros l Hl. apply list_elem_of_filter in Hl as [Hret Hin].
  specialize (Hcells l). rewrite decide_True in Hcells by done.
  unfold retained in Hret. destruct (h !! l) as [object|] eqn:Hobj; [|done].
  exists object, (restrict category object). simpl in Hcells.
  repeat split; done.
Qed.

Lemma C5_filter_keeps_allow_listed_witness :
  ∃ h' : Heap,
    filterGovernanceConnectorCategories "QWNjb3VudCBNYW5hZ2VtZW50" [0; 1]
      example_heap = (Normal [0], h') ∧
    connector_properties <$> h' !! 0 =
    Some [ mkConnectorProperty "Recovery.Notification.Password.Enable" "true"
             "Notification based password recovery" "" ].
Proof.
  destruct (C5_filter_keeps_allow_listed
    {| category_connectors := [
         {| org_friendlyName := "Account Recovery";
            org_id := "YWNjb3VudC1yZWNvdmVyeQ";
            org_name := "account-recovery";
            org_properties := [ "Recovery.Notification.Password.Enable" ] |} ];
       category_id := "QWNjb3VudCBNYW5hZ2VtZW50";
       category_name := "Account Management" |}
    [0; 1] example_heap) as (h' & Hrun & _).
  - apply list_elem_of_here.
  - repeat constructor; vm_compute; eauto.
  - exists h'. split; [exact Hrun |].
    vm_compute in Hrun. injection Hrun as <-. reflexivity.
Defined.

(** The surviving properties keep the order of the input connector, which
    here is the reverse of the allow-list's. *)
Example filter_keeps_input_property_order :
  let h : Heap :=
    {[ 7 := {| connector_id := "dXNlci1lbWFpbC12ZXJpZmljYXRpb24";
               connector_name := "user-email-verification";
               connector_category := "User Onboarding";
               connector_friendlyName := "Ask Password";
               connector_properties := [
                 mkConnectorProperty "EmailVerification.ExpiryTime" "1440" "" "";
                 mkConnectorProperty "EmailVerification.OTP.OTPLength" "6" "" "";
                 mkConnectorProperty "EmailVerification.Enable" "false" "" "" ] |} ]} in
  let run := filterGovernanceConnectorCategories "VXNlciBPbmJvYXJkaW5n" [7] h in
  run.1 = Normal [7] ∧
  (map property_name ∘ connector_properties) <$> run.2 !! 7 =
  Some [ "EmailVerification.ExpiryTime"; "EmailVerification.Enable" ].
Proof. split; reflexivity. Qed.

(** C2, as the code has it: for the identifier of an allow-list entry the
    filter returns a new array, and in the store it assigns to the
    [properties] of every input object with an allow-listed identifier the
    list of its visible properties; every other member of those objects and
    every other object are as before. *)
Theorem C2_filter_store_effect
  (category : GovernanceCategoryForOrgsInterface)
  (governanceConnectors : list loc) (h : Heap) :
  category ∈ SHOW_GOVERNANCE_CONNECTORS_FOR_SUBORGS →
  live h governanceConnectors →
  ∃ (result : list loc) (h' : Heap),
    filterGovernanceConnectorCategories (category_id category)
      governanceConnectors h = (Normal result, h') ∧
    ∀ l, h' !! l =
         if decide (l ∈ governanceConnectors ∧ retained category h l)
         then (λ object, set_properties object (visibleProperties category object))
                <$> h !! l
         else h !! l.
Proof.
  intros Hentry Hlive. rewrite filter_known_category by done.
  destruct (allow_list_entry _ Hentry) as [Hnd _].
  destruct (array_filter_run category governanceConnectors h Hnd Hlive)
    as (h' & Hrun & Hcells).
  by exists (filter (retained category h) governanceConnectors), h'.
Qed.

Lemma C2_filter_store_effect_witness :
  ∃ (result : list loc) (h' : Heap),
    filterGovernanceConnectorCategories "QWNjb3VudCBNYW5hZ2VtZW50" [0; 1]
      example_heap = (Normal result, h') ∧
    h' !! 1 = example_heap !! 1.
Proof.
  destruct (C2_filter_store_effect
    {| category_connectors := [
         {| org_friendlyName := "Account Recovery";
            org_id := "YWNjb3VudC1yZWNvdmVyeQ";
            org_name := "account-recovery";
            org_properties := [ "Recovery.Notification.Password.Enable" ] |} ];
       category_id := "QWNjb3VudCBNYW5hZ2VtZW50";
       category_name := "Account Management" |}
    [0; 1] example_heap) as (result & h' & Hrun & Hcells).
  - apply list_elem_of_here.
  - repeat constructor; vm_compute; eauto.
  - exists result, h'. split; [exact Hrun |].
    vm_compute in Hrun. injection Hrun as _ <-. reflexivity.
Defined.

(** C2 as stated fails: after the call on [example_heap] the first input
    connector has lost the property that is not allow-listed. *)
Lemma C2_input_connector_is_mutated :
  "QWNjb3VudCBNYW5hZ2VtZW50" ∈ map category_id SHOW_GOVERNANCE_CONNECTORS_FOR_SUBORGS ∧
  live example_heap [0; 1] ∧
  (filterGovernanceConnectorCategories "QWNjb3VudCBNYW5hZ2VtZW50" [0; 1]
     example_heap).2 !! 0 ≠ example_heap !! 0.
Proof.
  split; [apply list_elem_of_here |]. split.
  - repeat constructor; vm_compute; eauto.
  - vm_compute. discriminate.
Qed.

(** C3, as the code has it: for an identifier that no allow-list entry
    carries, the filter throws the [TypeError] of reading [connectors] on
    [undefined]; it returns no array, empty or not, and leaves the store as
    it was. *)
Theorem C3_unknown_category_throws_TypeError
  (governanceCategoryId : string) (governanceConnectors : list loc) (h : Heap) :
  (∀ category, category ∈ SHOW_GOVERNANCE_CONNECTORS_FOR_SUBORGS →
               category_id category ≠ governanceCategoryId) →
  filterGovernanceConnectorCategories governanceCategoryId
    governanceConnectors h = (Throw (TypeError "connectors"), h).
Proof. apply filter_unknown_category. Qed.

Lemma C3_unknown_category_throws_TypeError_witness :
  filterGovernanceConnectorCategories "not-a-real-category" [] ∅ =
  (Throw (TypeError "connectors"), ∅).
Proof.
  apply (C3_unknown_category_throws_TypeError "not-a-real-category" [] ∅).
  intros category Hentry. unfold SHOW_GOVERNANCE_CONNECTORS_FOR_SUBORGS in Hentry.
  rewrite !elem_of_cons, elem_of_nil in Hentry.
  destruct Hentry as [-> | [-> | []]]; discriminate.
Defined.

(** C3 as stated fails: the error thrown for [not-a-real-category] is not
    an [UnknownCategoryError]. *)
Lemma C3_no_UnknownCategoryError :
  (∀ category, category ∈ SHOW_GOVERNANCE_CONNECTORS_FOR_SUBORGS →
               category_id category ≠ "not-a-real-category") ∧
  ¬ ∃ e (h' : Heap),
      filterGovernanceConnectorCategories "not-a-real-category" [] ∅ = (Throw e, h') ∧
      error_name e = "UnknownCategoryError".
Proof.
  split.
  - intros category Hentry. unfold SHOW_GOVERNANCE_CONNECTORS_FOR_SUBORGS in Hentry.
    rewrite !elem_of_cons, elem_of_nil in Hentry.
    destruct Hentry as [-> | [-> | []]]; discriminate.
  - intros (e & h' & Hrun & Hname).
    rewrite filter_not_a_real_category in Hrun.
    injection Hrun as <- _. discriminate Hname.
Qed.

End GovernanceConnectorProofs.

(** ** Further properties of the self-registration component *)

Module SelfRegistrationExtras.
Import UserSelfRegistration Alerts UserSelfRegistrationForm.
Import SelfRegistrationProofs.

(** X1: the checkbox values of a concatenation are the checkbox values of
    its parts, one after the other; and there are never more of them than
    there are input properties. *)
Theorem X1_checkbox_values_app (before after : list ConfigProperty) :
  getSelfRegistrationCheckboxValues {| properties := before ++ after |} =
    getSelfRegistrationCheckboxValues {| properties := before |} ++
    getSelfRegistrationCheckboxValues {| properties := after |} ∧
  (length (getSelfRegistrationCheckboxValues {| properties := before |})
   ≤ length before)%nat.
Proof.
  rewrite !checkbox_values_filter. simpl. split.
  - by rewrite filter_app, map_app.
  - rewrite length_map. apply length_filter.
Qed.

(** X2: the PATCH body, read back as an API response, always gives a view
    model: the scalar fields are those of the view model the body was made
    from, and the checkbox values are the flag keys that view model
    selected, in the declared order and each once. *)
Theorem X2_patch_body_reads_back (configs : SelfSignUpConfigurationsInterface) :
  toViewModel
    {| properties := patch_properties (getSelfSignUpPatchCallData configs) |} =
  Normal {| checkboxValues :=
              filter (λ key, key ∈ checkboxValues configs) flagKeys;
            verificationCodeExpiryTime := verificationCodeExpiryTime configs;
            smsOTPExpiryTime := smsOTPExpiryTime configs;
            callbackRegex := callbackRegex configs |}.
Proof.
  destruct configs as [selected v1 v2 v3].
  unfold toViewModel, getSelfRegistrationCheckboxValues. simpl.
  rewrite !flag_includes. unfold flagKeys. rewrite !filter_cons, filter_nil.
  destruct (decide (SELF_REGISTRATION_ENABLE ∈ selected));
    destruct (decide (ACCOUNT_LOCK_ON_CREATION ∈ selected));
    destruct (decide (NOTIFICATION_INTERNALLY_MANAGED ∈ selected));
    destruct (decide (RE_CAPTCHA ∈ selected));
    reflexivity.
Qed.

(** X3: the PATCH body depends on [checkboxValues] only through which of
    the four flag keys it holds: order, repetitions and other strings in
    it make no difference. *)
Theorem X3_patch_body_membership_only
  (configs configs' : SelfSignUpConfigurationsInterface) :
  (∀ key, key ∈ flagKeys →
     key ∈ checkboxValues configs ↔ key ∈ checkboxValues configs') →
  verificationCodeExpiryTime configs = verificationCodeExpiryTime configs' →
  smsOTPExpiryTime configs = smsOTPExpiryTime configs' →
  callbackRegex configs = callbackRegex configs' →
  getSelfSignUpPatchCallData configs = getSelfSignUpPatchCallData configs'.
Proof.
  intros Hflags H1 H2 H3. unfold getSelfSignUpPatchCallData.
  rewrite H1, H2, H3, !flag_includes.
  assert (Hsame : ∀ key, key ∈ flagKeys →
            (if decide (key ∈ checkboxValues configs) then "true" else "false") =
            (if decide (key ∈ checkboxValues configs') then "true" else "false")).
  { intros key Hkey. specialize (Hflags key Hkey).
    destruct (decide (key ∈ checkboxValues configs)),
             (decide (key ∈ checkboxValues configs')); tauto. }
  rewrite (Hsame SELF_REGISTRATION_ENABLE), (Hsame ACCOUNT_LOCK_ON_CREATION),
    (Hsame NOTIFICATION_INTERNALLY_MANAGED), (Hsame RE_CAPTCHA);
    try (apply flagKeys_elem; tauto).
  reflexivity.
Qed.

Lemma X3_patch_body_membership_only_witness :
  getSelfSignUpPatchCallData
    {| checkboxValues := [ "other"; RE_CAPTCHA; SELF_REGISTRATION_ENABLE; RE_CAPTCHA ];
       verificationCodeExpiryTime := "1440";
       smsOTPExpiryTime := "1";
       callbackRegex := ".*" |} =
  getSelfSignUpPatchCallData
    {| checkboxValues := [ SELF_REGISTRATION_ENABLE; RE_CAPTCHA ];
       verificationCodeExpiryTime := "1440";
       smsOTPExpiryTime := "1";
       callbackRegex := ".*" |}.
Proof.
  apply X3_patch_body_membership_only; try reflexivity.
  intros key Hkey. simpl. rewrite !elem_of_cons, !elem_of_nil.
  apply flagKeys_elem in Hkey as [-> | [-> | [-> | ->]]];
    split; intros H; repeat (destruct H as [H|H]; try discriminate H);
    tauto.
Defined.

(** X4: the edit section is rendered after [showFormEditView] on the
    form's identifier and not after [hideFormEditView] on it, whatever the
    state was; either call on another form name leaves it as it is; and it
    is not rendered in the initial state. *)
Theorem X4_edit_view_follows_show_and_hide
  (state : ComponentState) (formName : string) :
  showUserSelfRegistrationView
    (showFormEditView USER_SELF_REGISTRATION_FORM_IDENTIFIER state) = true ∧
  showUserSelfRegistrationView
    (hideFormEditView USER_SELF_REGISTRATION_FORM_IDENTIFIER state) = false ∧
  (formName ≠ USER_SELF_REGISTRATION_FORM_IDENTIFIER →
     showUserSelfRegistrationView (showFormEditView formName state) =
       showUserSelfRegistrationView state ∧
     showUserSelfRegistrationView (hideFormEditView formName state) =
       showUserSelfRegistrationView state) ∧
  (editingForm state = initialEditingForm →
     showUserSelfRegistrationView state = false).
Proof.
  unfold showUserSelfRegistrationView, showFormEditView, hideFormEditView.
  simpl. split; [by rewrite lookup_insert_eq |].
  split; [by rewrite lookup_insert_eq |]. split.
  - intros Hne. by rewrite !lookup_insert_ne.
  - intros ->. unfold initialEditingForm. by rewrite lookup_singleton_eq.
Qed.

Lemma X4_edit_view_follows_show_and_hide_witness :
  let state := {| editingForm := initialEditingForm;
                  selfSignUpConfigs := mkConfigs [] "1440" "1" ".*";
                  showConfirmationModal := false |} in
  showUserSelfRegistrationView (showFormEditView "otherForm" state) = false.
Proof.
  intros state.
  destruct (X4_edit_view_follows_show_and_hide state "otherForm")
    as (_ & _ & Hother & Hinitial).
  destruct Hother as [-> _]; [discriminate |].
  apply Hinitial. reflexivity.
Defined.

(** X5: [saveSelfRegistrationConfigs] sends the PATCH body of the current
    view model.  When the request is fulfilled it dispatches a success
    alert, closes the confirmation modal and leaves the edit view.  When
    the request is rejected it dispatches one error alert and leaves the
    state as it was; the alert carries the server's [detail] exactly when
    there is a response, its status is not 401 and the detail is a
    non-empty string. *)
Theorem X5_save_outcome (state : ComponentState) (error : AxiosError) :
  let fulfilled := saveSelfRegistrationConfigs state None in
  let rejected := saveSelfRegistrationConfigs state (Some error) in
  run_data fulfilled = getSelfSignUpPatchCallData (selfSignUpConfigs state) ∧
  run_data rejected = getSelfSignUpPatchCallData (selfSignUpConfigs state) ∧
  alert_level (run_alert fulfilled) = SUCCESS ∧
  showConfirmationModal (run_state fulfilled) = false ∧
  showUserSelfRegistrationView (run_state fulfilled) = false ∧
  selfSignUpConfigs (run_state fulfilled) = selfSignUpConfigs state ∧
  run_state rejected = state ∧
  alert_level (run_alert rejected) = ERROR ∧
  (∀ detail,
     t_description (alert_description (run_alert rejected)) = Some detail ↔
     ∃ response data,
       error_response error = Some response ∧
       response_status response ≠ 401 ∧
       response_data response = Some data ∧
       data_detail data = Some detail ∧ detail ≠ "").
Proof.
  cbv zeta. unfold saveSelfRegistrationConfigs. simpl.
  split; [done |]. split; [done |]. split; [done |]. split; [done |].
  split.
  { unfold showUserSelfRegistrationView. simpl. by rewrite lookup_insert_eq. }
  split; [done |]. split; [done |].
  unfold saveErrorAlert.
  destruct error as [[[status [[code description detail]|]]|]]; simpl.
  - destruct (decide (status = 401)) as [->|Hstatus]; simpl.
    + split; [done |]. intros d. split; [done |].
      intros (response & data & [= <-] & Hne & _). by destruct Hne.
    + destruct detail as [detail|]; simpl.
      * destruct (decide (detail ≠ "")) as [Hd|Hd].
        -- rewrite bool_decide_eq_true_2 by done. simpl. split; [done |].
           intros d. split.
           ++ intros [= <-]. by eexists _, _.
           ++ by intros (response & data & [= <-] & _ & [= <-] & [= <-] & _).
        -- rewrite bool_decide_eq_false_2 by done. simpl. split; [done |].
           intros d. split; [done |].
           intros (response & data & [= <-] & _ & [= <-] & [= <-] & Hne).
           by destruct Hd.
      * split; [done |]. intros d. split; [done |].
        by intros (response & data & [= <-] & _ & [= <-] & [=] & _).
  - destruct (decide (status = 401)); simpl; (split; [done |]);
      intros d; (split; [done |]);
      by intros (response & data & [= <-] & _ & [=] & _).
  - split; [done |]. intros d. split; [done |].
    by intros (response & data & [=] & _).
Qed.

End SelfRegistrationExtras.

(** ** Further properties of the governance connector utilities *)

Module GovernanceConnectorExtras.
Import GovernanceConnectorUtils GovernanceConnectorProofs.

Lemma encode_replace_all (name : string) :
  encodeConnectorPropertyName name = replace_all "." "-" name.
Proof. apply join_split. Qed.

Lemma replace_all_length from to s :
  String.length (replace_all from to s) = String.length s.
Proof. induction s as [|c rest IH]; simpl; [done | by rewrite IH]. Qed.

Lemma replace_all_removes from to s :
  from ≠ to → ¬ occurs from (replace_all from to s).
Proof.
  intros Hne. induction s as [|c rest IH]; simpl; [tauto |].
  intros [Hhead|Htail]; [|tauto].
  destruct (decide (c = from)); congruence.
Qed.

Lemma replace_all_forth (s : string) :
  replace_all "." "-" (replace_all "-" "." s) = replace_all "." "-" s.
Proof.
  induction s as [|c rest IH]; simpl; [done |]. rewrite IH. f_equal.
  destruct (decide (c = "-"%char)) as [->|Hdash]; [done |].
  reflexivity.
Qed.

(** X6: encoding a decoded name gives the name with every ["."] turned
    into ["-"], hence the name itself when it holds no ["."]. *)
Theorem X6_encode_decode_round_trip (name : string) :
  (encodeConnectorPropertyName <$> decodeConnectorPropertyName (Some name)) =
    Some (replace_all "." "-" name) ∧
  (¬ occurs "." name →
   (encodeConnectorPropertyName <$> decodeConnectorPropertyName (Some name)) =
     Some name).
Proof.
  assert (Hgen : (encodeConnectorPropertyName <$>
                    decodeConnectorPropertyName (Some name)) =
                 Some (replace_all "." "-" name)).
  { simpl. rewrite encode_replace_all, join_split. by rewrite replace_all_forth. }
  split; [exact Hgen |].
  intros Hno. by rewrite Hgen, replace_all_absent.
Qed.

Lemma X6_encode_decode_round_trip_witness :
  (encodeConnectorPropertyName <$>
     decodeConnectorPropertyName (Some "EmailVerification-Enable")) =
  Some "EmailVerification-Enable".
Proof.
  apply (proj2 (X6_encode_decode_round_trip "EmailVerification-Enable")).
  simpl. intros H. repeat (destruct H as [H|H]; [discriminate H |]). exact H.
Defined.

(** X7: an encoded name holds no ["."] and a decoded name no ["-"]; both
    are as long as the name they come from. *)
Theorem X7_encode_decode_shape (name : string) :
  ¬ occurs "." (encodeConnectorPropertyName name) ∧
  String.length (encodeConnectorPropertyName name) = String.length name ∧
  ∃ decoded,
    decodeConnectorPropertyName (Some name) = Some decoded ∧
    ¬ occurs "-" decoded ∧
    String.length decoded = String.length name.
Proof.
  rewrite encode_replace_all. split; [by apply replace_all_removes |].
  split; [apply replace_all_length |].
  exists (replace_all "-" "." name). simpl. rewrite join_split.
  split; [done |]. split; [by apply replace_all_removes |].
  apply replace_all_length.
Qed.

(** X8: two names without ["-"] that encode to the same string are the
    same name. *)
Theorem X8_encode_injective (name name' : string) :
  ¬ occurs "-" name → ¬ occurs "-" name' →
  encodeConnectorPropertyName name = encodeConnectorPropertyName name' →
  name = name'.
Proof.
  intros Hno Hno' Heq.
  pose proof (decode_encode name) as Hd.
  pose proof (decode_encode name') as Hd'.
  rewrite Heq, Hd' in Hd. injection Hd as Hd.
  by rewrite !replace_all_absent in Hd.
Qed.

Lemma X8_encode_injective_witness :
  encodeConnectorPropertyName "EmailVerification.Enable" =
    "EmailVerification-Enable" ∧
  "EmailVerification.Enable" = "EmailVerification.Enable".
Proof.
  split; [reflexivity |].
  apply (X8_encode_injective "EmailVerification.Enable"
                             "EmailVerification.Enable");
    [| | reflexivity];
    simpl; intros H; repeat (destruct H as [H|H]; [discriminate H |]); exact H.
Defined.

(** X9: [getGovernanceConnectorsProperties] returns the properties of the
    first connector with the identifier asked for, and throws the
    [TypeError] of reading [properties] on [undefined] when no connector
    has it. *)
Theorem X9_connector_properties_lookup
  (showGovernanceConnectors : list GovernanceConnectorForOrgsInterface)
  (governanceConnectorId : string) :
  ((∀ connector, connector ∈ showGovernanceConnectors →
                 org_id connector ≠ governanceConnectorId) →
   getGovernanceConnectorsProperties showGovernanceConnectors
     governanceConnectorId = Throw (TypeError "properties")) ∧
  (∀ before connector after,
     showGovernanceConnectors = before ++ connector :: after →
     org_id connector = governanceConnectorId →
     Forall (λ other, org_id other ≠ governanceConnectorId) before →
     getGovernanceConnectorsProperties showGovernanceConnectors
       governanceConnectorId = Normal (org_properties connector)).
Proof.
  unfold getGovernanceConnectorsProperties. split.
  - intros Hno.
    destruct (filter _ showGovernanceConnectors) as [|first others] eqn:Hf;
      [reflexivity |].
    exfalso.
    assert (first ∈ filter (λ connector, org_id connector = governanceConnectorId)
              showGovernanceConnectors) as Hin
      by (rewrite Hf; apply list_elem_of_here).
    apply list_elem_of_filter in Hin as [Hid Hin]. by apply (Hno first).
  - intros before connector after -> Hid Hbefore.
    rewrite filter_app, filter_cons, decide_True by done.
    replace (filter _ before) with (@nil GovernanceConnectorForOrgsInterface);
      [reflexivity |].
    symmetry. induction Hbefore as [|other before Hother _ IH]; [done |].
    by rewrite filter_cons, decide_False.
Qed.

Lemma X9_connector_properties_lookup_witness :
  getGovernanceConnectorsProperties
    [ mkOrgConnector "A" "a" "first" [ "p" ];
      mkOrgConnector "B" "b" "second" [ "q" ];
      mkOrgConnector "B2" "b" "third" [ "r" ] ] "b" = Normal [ "q" ] ∧
  getGovernanceConnectorsProperties
    [ mkOrgConnector "A" "a" "first" [ "p" ] ] "b" =
    Throw (TypeError "properties").
Proof.
  split.
  - apply (proj2 (X9_connector_properties_lookup _ "b")
             [ mkOrgConnector "A" "a" "first" [ "p" ] ]
             (mkOrgConnector "B" "b" "second" [ "q" ])
             [ mkOrgConnector "B2" "b" "third" [ "r" ] ]);
      [reflexivity | reflexivity |].
    repeat constructor. simpl. discriminate.
  - apply (proj1 (X9_connector_properties_lookup _ "b")).
    intros connector Hin. apply list_elem_of_singleton in Hin as ->.
    simpl. discriminate.
Defined.

(** The cells of the store after a run, for the objects the array refers
    to. *)
Lemma cells_retained category (h h' : Heap) (array : list loc) :
  (∀ l, h' !! l =
        if decide (l ∈ array ∧ retained category h l)
        then restrict category <$> h !! l else h !! l) →
  ∀ l, retained category h' l ↔ retained category h l.
Proof.
  intros Hcells l. unfold retained. rewrite (Hcells l).
  destruct (decide (l ∈ array ∧ retained category h l)) as [[_ Hret]|_];
    [|done].
  by destruct (h !! l).
Qed.

Lemma cells_live category (h h' : Heap) (array array' : list loc) :
  (∀ l, h' !! l =
        if decide (l ∈ array ∧ retained category h l)
        then restrict category <$> h !! l else h !! l) →
  live h array' → live h' array'.
Proof.
  intros Hcells Hlive. unfold live in *.
  eapply Forall_impl; [exact Hlive |]. intros l [object Hobj]. simpl.
  rewrite (Hcells l), Hobj. by destruct (decide _); eauto.
Qed.

(** Running the filter on a store that a run over [array] produced, over
    elements of [array], changes nothing. *)
Lemma cells_fixed category (h h' h'' : Heap) (array array' : list loc) :
  (∀ l, l ∈ array' → l ∈ array) →
  (∀ l, h' !! l =
        if decide (l ∈ array ∧ retained category h l)
        then restrict category <$> h !! l else h !! l) →
  (∀ l, h'' !! l =
        if decide (l ∈ array' ∧ retained category h' l)
        then restrict category <$> h' !! l else h' !! l) →
  h'' = h'.
Proof.
  intros Hsub Hcells Hcells'. apply map_eq. intros l. rewrite (Hcells' l).
  destruct (decide (l ∈ array' ∧ retained category h' l)) as [[Hin Hret]|_];
    [|done].
  apply (cells_retained _ _ _ _ Hcells) in Hret.
  rewrite (Hcells l), decide_True by auto.
  destruct (h !! l); simpl; [|done]. by rewrite restrict_idemp.
Qed.

(** X10: the filter is idempotent: run again on the store it left, over
    the same input or over its own result, it returns the same result and
    leaves the store as it is. *)
Theorem X10_filter_idempotent
  (category : GovernanceCategoryForOrgsInterface)
  (governanceConnectors : list loc) (h : Heap) :
  category ∈ SHOW_GOVERNANCE_CONNECTORS_FOR_SUBORGS →
  live h governanceConnectors →
  ∃ (result : list loc) (h' : Heap),
    filterGovernanceConnectorCategories (category_id category)
      governanceConnectors h = (Normal result, h') ∧
    filterGovernanceConnectorCategories (category_id category)
      governanceConnectors h' = (Normal result, h') ∧
    filterGovernanceConnectorCategories (category_id category)
      result h' = (Normal result, h').
Proof.
  intros Hentry Hlive. rewrite !filter_known_category by done.
  destruct (allow_list_entry _ Hentry) as [Hnd _].
  destruct (array_filter_run category governanceConnectors h Hnd Hlive)
    as (h' & Hrun & Hcells).
  exists (filter (retained category h) governanceConnectors), h'.
  split; [exact Hrun |]. split.
  - rewrite filter_known_category by done.
    pose proof (cells_live _ _ _ _ _ Hcells Hlive) as Hlive'.
    destruct (array_filter_run category governanceConnectors h' Hnd Hlive')
      as (h'' & Hrun' & Hcells').
    rewrite Hrun'. f_equal.
    + f_equal. apply list_filter_iff. intros l.
      apply (cells_retained _ _ _ _ Hcells).
    + by apply (cells_fixed category h h' h'' governanceConnectors
                  governanceConnectors).
  - rewrite filter_known_category by done.
    assert (Hsub : ∀ l, l ∈ filter (retained category h) governanceConnectors →
                        l ∈ governanceConnectors).
    { intros l Hl. by apply list_elem_of_filter in Hl as [_ Hl]. }
    assert (Hlive' : live h' (filter (retained category h) governanceConnectors)).
    { apply (cells_live _ _ _ _ _ Hcells). unfold live in *.
      rewrite Forall_forall in *. intros l Hl. apply Hlive. by apply Hsub. }
    destruct (array_filter_run category _ h' Hnd Hlive')
      as (h'' & Hrun' & Hcells').
    rewrite Hrun'. f_equal.
    + f_equal. rewrite list_filter_filter. apply list_filter_iff. intros l.
      rewrite (cells_retained _ _ _ _ Hcells l). tauto.
    + by apply (cells_fixed category h h' h'' governanceConnectors
                  (filter (retained category h) governanceConnectors)).
Qed.

Lemma X10_filter_idempotent_witness :
  ∃ (result : list loc) (h' : Heap),
    filterGovernanceConnectorCategories "QWNjb3VudCBNYW5hZ2VtZW50" [0; 1; 0]
      example_heap = (Normal result, h') ∧
    filterGovernanceConnectorCategories "QWNjb3VudCBNYW5hZ2VtZW50" result h'
      = (Normal result, h').
Proof.
  destruct (X10_filter_idempotent
    {| category_connectors := [
         {| org_friendlyName := "Account Recovery";
            org_id := "YWNjb3VudC1yZWNvdmVyeQ";
            org_name := "account-recovery";
            org_properties := [ "Recovery.Notification.Password.Enable" ] |} ];
       category_id := "QWNjb3VudCBNYW5hZ2VtZW50";
       category_name := "Account Management" |}
    [0; 1; 0] example_heap) as (result & h' & Hrun & _ & Hagain).
  - apply list_elem_of_here.
  - repeat constructor; vm_compute; eauto.
  - by exists result, h'.
Defined.

(** X11: the filter neither adds nor removes objects of the store, and
    returns its input with some elements left out.  Of an object it changes
    the [properties] only, and only by leaving some of them out: the
    identifier, name, category and friendly name stay, and no property is
    added, altered or moved. *)
Theorem X11_filter_frame
  (category : GovernanceCategoryForOrgsInterface)
  (governanceConnectors : list loc) (h : Heap) :
  category ∈ SHOW_GOVERNANCE_CONNECTORS_FOR_SUBORGS →
  live h governanceConnectors →
  ∃ (result : list loc) (h' : Heap),
    filterGovernanceConnectorCategories (category_id category)
      governanceConnectors h = (Normal result, h') ∧
    result `sublist_of` governanceConnectors ∧
    dom h' = dom h ∧
    ∀ l object', h' !! l = Some object' →
      ∃ object,
        h !! l = Some object ∧
        connector_id object' = connector_id object ∧
        connector_name object' = connector_name object ∧
        connector_category object' = connector_category object ∧
        connector_friendlyName object' = connector_friendlyName object ∧
        connector_properties object' `sublist_of` connector_properties object.
Proof.
  intros Hentry Hlive. rewrite filter_known_category by done.
  destruct (allow_list_entry _ Hentry) as [Hnd _].
  destruct (array_filter_run category governanceConnectors h Hnd Hlive)
    as (h' & Hrun & Hcells).
  exists (filter (retained category h) governanceConnectors), h'.
  split; [exact Hrun |]. split; [apply sublist_filter |]. split.
  - apply set_eq. intros l. rewrite !elem_of_dom, (Hcells l).
    destruct (decide _); [|done]. by rewrite fmap_is_Some.
  - intros l object' Hobj'. rewrite (Hcells l) in Hobj'.
    destruct (decide _).
    + destruct (h !! l) as [object|]; simplify_eq/=.
      exists object. repeat split; try done. apply sublist_filter.
    + exists object'. by repeat split.
Qed.

Lemma X11_filter_frame_witness :
  ∃ (result : list loc) (h' : Heap),
    filterGovernanceConnectorCategories "VXNlciBPbmJvYXJkaW5n" [1; 0]
      example_heap = (Normal result, h') ∧
    dom h' = dom example_heap.
Proof.
  destruct (X11_filter_frame
    {| category_connectors := [
         {| org_friendlyName := "Ask Password";
            org_id := "dXNlci1lbWFpbC12ZXJpZmljYXRpb24";
            org_name := "user-email-verification";
            org_properties := [
              "EmailVerification.Enable";
              "EmailVerification.LockOnCreation";
              "EmailVerification.Notification.InternallyManage";
              "EmailVerification.ExpiryTime";
              "EmailVerification.AskPassword.ExpiryTime";
              "EmailVerification.AskPassword.PasswordGenerator";
              "_url_listPurposeJITProvisioning" ] |} ];
       category_id := "VXNlciBPbmJvYXJkaW5n";
       category_name := "User Onboarding" |}
    [1; 0] example_heap) as (result & h' & Hrun & _ & Hdom & _).
  - apply list_elem_of_further, list_elem_of_here.
  - repeat constructor; vm_compute; eauto.
  - by exists result, h'.
Defined.

Lemma allow_list_disjoint category category' id :
  category ∈ SHOW_GOVERNANCE_CONNECTORS_FOR_SUBORGS →
  category' ∈ SHOW_GOVERNANCE_CONNECTORS_FOR_SUBORGS →
  category ≠ category' →
  id ∈ allowedIds category → id ∉ allowedIds category'.
Proof.
  unfold SHOW_GOVERNANCE_CONNECTORS_FOR_SUBORGS.
  rewrite !elem_of_cons, !elem_of_nil.
  intros [-> | [-> | []]] [-> | [-> | []]] Hne; try done;
    unfold allowedIds; simpl; rewrite !elem_of_cons, !elem_of_nil;
    intros [-> | []] [Heq | []]; discriminate Heq.
Qed.

(** X12: the allow-list entries share no connector: what the filter keeps
    for one entry, the filter for another entry drops altogether, without
    touching the store. *)
Theorem X12_filter_other_category_keeps_nothing
  (category category' : GovernanceCategoryForOrgsInterface)
  (governanceConnectors : list loc) (h : Heap) :
  category ∈ SHOW_GOVERNANCE_CONNECTORS_FOR_SUBORGS →
  category' ∈ SHOW_GOVERNANCE_CONNECTORS_FOR_SUBORGS →
  category ≠ category' →
  live h governanceConnectors →
  ∃ (result : list loc) (h' : Heap),
    filterGovernanceConnectorCategories (category_id category)
      governanceConnectors h = (Normal result, h') ∧
    filterGovernanceConnectorCategories (category_id category')
      result h' = (Normal [], h').
Proof.
  intros Hentry Hentry' Hne Hlive. rewrite filter_known_category by done.
  destruct (allow_list_entry _ Hentry) as [Hnd _].
  destruct (allow_list_entry _ Hentry') as [Hnd' _].
  destruct (array_filter_run category governanceConnectors h Hnd Hlive)
    as (h' & Hrun & Hcells).
  exists (filter (retained category h) governanceConnectors), h'.
  split; [exact Hrun |]. rewrite filter_known_category by done.
  assert (Hlive' : live h' (filter (retained category h) governanceConnectors)).
  { apply (cells_live _ _ _ _ _ Hcells). unfold live in *.
    rewrite Forall_forall in *. intros l Hl. apply Hlive.
    by apply list_elem_of_filter in Hl as [_ Hl]. }
  destruct (array_filter_run category' _ h' Hnd' Hlive')
    as (h'' & Hrun' & Hcells').
  assert (Hnone : ∀ l, ¬ (l ∈ filter (retained category h) governanceConnectors ∧
                          retained category' h' l)).
  { intros l [Hl Hret']. apply list_elem_of_filter in Hl as [Hret _].
    apply (cells_retained _ _ _ _ Hcells) in Hret.
    unfold retained in Hret, Hret'. destruct (h' !! l); [|done].
    by apply (allow_list_disjoint category category' _ Hentry Hentry' Hne Hret). }
  rewrite Hrun'. f_equal.
  - f_equal.
    destruct (filter (retained category' h') _) as [|l kept] eqn:Hkept;
      [done |].
    assert (l ∈ filter (retained category' h')
                  (filter (retained category h) governanceConnectors)) as Hl
      by (rewrite Hkept; apply list_elem_of_here).
    apply list_elem_of_filter in Hl as [Hret' Hl]. by destruct (Hnone l).
  - apply map_eq. intros l. rewrite (Hcells' l).
    destruct (decide _) as [Hboth|_]; [|done]. by destruct (Hnone l).
Qed.

Lemma X12_filter_other_category_keeps_nothing_witness :
  ∃ (result : list loc) (h' : Heap),
    filterGovernanceConnectorCategories "QWNjb3VudCBNYW5hZ2VtZW50" [0; 1]
      example_heap = (Normal result, h') ∧
    filterGovernanceConnectorCategories "VXNlciBPbmJvYXJkaW5n" result h'
      = (Normal [], h').
Proof.
  destruct (X12_filter_other_category_keeps_nothing
    {| category_connectors := [
         {| org_friendlyName := "Account Recovery";
            org_id := "YWNjb3VudC1yZWNvdmVyeQ";
            org_name := "account-recovery";
            org_properties := [ "Recovery.Notification.Password.Enable" ] |} ];
       category_id := "QWNjb3VudCBNYW5hZ2VtZW50";
       category_name := "Account Management" |}
    {| category_connectors := [
         {| org_friendlyName := "Ask Password";
            org_id := "dXNlci1lbWFpbC12ZXJpZmljYXRpb24";
            org_name := "user-email-verification";
            org_properties := [
              "EmailVerification.Enable";
              "EmailVerification.LockOnCreation";
              "EmailVerification.Notification.InternallyManage";
              "EmailVerification.ExpiryTime";
              "EmailVerification.AskPassword.ExpiryTime";
              "EmailVerification.AskPassword.PasswordGenerator";
              "_url_listPurposeJITProvisioning" ] |} ];
       category_id := "VXNlciBPbmJvYXJkaW5n";
       category_name := "User Onboarding" |}
    [0; 1] example_heap) as (result & h' & Hrun & Hother).
  - apply list_elem_of_here.
  - apply list_elem_of_further, list_elem_of_here.
  - discriminate.
  - repeat constructor; vm_compute; eauto.
  - by exists result, h'.
Defined.

End GovernanceConnectorExtras.

(** ** Properties of the invitation of a parent organization user *)

Module InviteParentOrgUserProofs.
Import Alerts InviteParentOrgUser.

Lemma role_options_spec (allowedRoles : option RolesList) :
  ∃ options,
    rolesAutocompleteOptions allowedRoles = Some options ∧
    map option_role options =
      filter offered (default [] (allowedRoles ≫= Resources)) ∧
    Forall (λ option,
              option_key option = role_id (option_role option) ∧
              option_label option = role_displayName (option_role option) ∧
              offered (option_role option))
           options.
Proof.
  unfold rolesAutocompleteOptions.
  destruct (allowedRoles ≫= Resources) as [[|role roles]|]; simpl.
  - exists []. by repeat split.
  - eexists. split; [reflexivity |]. split.
    + rewrite <- list_fmap_compose. apply list_fmap_id.
    + apply Forall_fmap, Forall_forall. intros r Hr. simpl.
      apply (list_elem_of_filter offered) in Hr as [Hr _]. by repeat split.
  - exists []. by repeat split.
Qed.

(** X13: the role options are never [undefined]; they are made of the
    roles of [Resources] whose audience is not the Console, in the order of
    [Resources], and each option has the identifier of its role as key and
    its display name as label.  Without [Resources] there is no option. *)
Theorem X13_role_options (allowedRoles : option RolesList) :
  ∃ options,
    rolesAutocompleteOptions allowedRoles = Some options ∧
    map option_role options =
      filter offered (default [] (allowedRoles ≫= Resources)) ∧
    Forall (λ option,
              option_key option = role_id (option_role option) ∧
              option_label option = role_displayName (option_role option) ∧
              offered (option_role option))
           options.
Proof. apply role_options_spec. Qed.

Lemma handle_error_alert (LIMIT : string) (error : AxiosError) :
  ∃ alert,
    handleParentOrgUserInviteError LIMIT error = [ Dispatch alert ] ∧
    alert_level alert = ERROR.
Proof.
  unfold handleParentOrgUserInviteError.
  destruct (error_response error) as [response|]; [|by eexists].
  destruct (decide _); [by eexists |].
  destruct (_ && _); [by eexists |].
  destruct (truthy _); by eexists.
Qed.

(** X14: the form has no error for the user name exactly when a non-empty
    user name was entered, and no error for the roles exactly when at least
    one role was selected; each error depends on its own field only. *)
Theorem X14_validation_errors (values : InviteParentOrgUserFormValuesInterface) :
  (errors_username (validateInviteParentOrgUserForm values) = None ↔
   ∃ username, values_username values = Some username ∧ username ≠ "") ∧
  (errors_roles (validateInviteParentOrgUserForm values) = None ↔
   ∃ role roles, values_roles values = Some (role :: roles)).
Proof.
  destruct values as [username roles]. unfold validateInviteParentOrgUserForm.
  simpl. split.
  - destruct username as [username|]; simpl.
    + destruct (decide (username ≠ "")) as [Hne|He].
      * rewrite bool_decide_eq_true_2 by done. simpl.
        destruct (absent roles || isEmpty roles); simpl;
          (split; [intros _; by exists username | done]).
      * rewrite bool_decide_eq_false_2 by done. simpl.
        destruct (absent roles || isEmpty roles); simpl;
          (split; [done | intros (u & [= <-] & Hu); by destruct He]).
    + destruct (absent roles || isEmpty roles); simpl;
        (split; [done | by intros (u & [=] & _)]).
  - destruct roles as [[|role roles]|]; simpl.
    + destruct (negb (truthy username)); simpl;
        (split; [done | by intros (r & rs & [=])]).
    + destruct (negb (truthy username)); simpl;
        (split; [intros _; by eexists _, _ | done]).
    + destruct (negb (truthy username)); simpl;
        (split; [done | by intros (r & rs & [=])]).
Qed.

Lemma array_map_selected (selected : list RolesAutoCompleteOption) :
  array_map entry_role_id (Selected <$> selected) =
  Normal (map (λ option, role_id (option_role option)) selected).
Proof.
  induction selected as [|option selected IH]; [done |].
  rewrite fmap_cons. cbn [array_map entry_role_id]. by rewrite IH.
Qed.

Lemma array_map_free_solo (roles : list RoleEntry) (text : string) :
  FreeSolo text ∈ roles →
  array_map entry_role_id roles = Throw (TypeError "id").
Proof.
  induction roles as [|role roles IH]; intros Hin.
  - by apply elem_of_nil in Hin.
  - destruct role as [option|text']; simpl; [|done].
    apply elem_of_cons in Hin as [[=]|Hin]. by rewrite IH.
Qed.

Lemma array_map_options (roles : list RoleEntry) :
  (∀ text, FreeSolo text ∉ roles) →
  ∃ identifiers, array_map entry_role_id roles = Normal identifiers.
Proof.
  induction roles as [|role roles IH]; intros Hno; simpl; [by eexists |].
  destruct role as [option|text]; simpl.
  - destruct IH as [identifiers ->]; [|by eexists].
    intros text Hin. apply (Hno text). by apply list_elem_of_further.
  - destruct (Hno text). apply list_elem_of_here.
Qed.

(** X15: when the roles selected in the form are among the options built
    from [allowedRoles], [inviteParentOrgUser] does not throw, and the
    invitation sent carries the user name entered and the keys of the
    selected options, each of which is the identifier of a role of
    [Resources] whose audience is not the Console. *)
Theorem X15_invite_payload
  (LIMIT : string) (onUserInviteSuccess : bool) (outcome : option AxiosError)
  (allowedRoles : option RolesList)
  (options selected : list RolesAutoCompleteOption) (username : option string) :
  rolesAutocompleteOptions allowedRoles = Some options →
  selected ⊆ options →
  (∃ events,
     inviteParentOrgUser LIMIT onUserInviteSuccess
       (Some {| values_username := username;
                values_roles := Some (Selected <$> selected) |})
       outcome = Normal events ∧
     invitations events =
       [ {| invite_roles := Some (map option_key selected);
            invite_username := username |} ]) ∧
  ∀ id, id ∈ map option_key selected →
    ∃ roles role,
      allowedRoles ≫= Resources = Some roles ∧
      role ∈ roles ∧ role_id role = id ∧ offered role.
Proof.
  intros Hoptions Hselected.
  destruct (role_options_spec allowedRoles) as (options' & Hoptions' & Hroles & Hall).
  rewrite Hoptions in Hoptions'. injection Hoptions' as <-.
  rewrite Forall_forall in Hall.
  assert (Hkeys : map (λ role, role_id (option_role role)) selected =
                  map option_key selected).
  { apply list_fmap_ext. intros i option Hi.
    apply list_elem_of_lookup_2 in Hi. apply Hselected in Hi.
    by destruct (Hall option Hi) as [-> _]. }
  split.
  - unfold inviteParentOrgUser. simpl. rewrite array_map_selected, Hkeys.
    simpl. eexists. split; [reflexivity |]. unfold invitations. simpl.
    destruct outcome as [error|]; simpl.
    + by destruct (handle_error_alert LIMIT error) as (alert & -> & _).
    + by destruct onUserInviteSuccess.
  - intros id Hid. apply list_elem_of_fmap in Hid as (option & -> & Hin).
    apply Hselected in Hin. destruct (Hall option Hin) as (Hkey & _ & Hoffered).
    assert (option_role option ∈ map option_role options) as Hrole
      by (by apply list_elem_of_fmap_2).
    rewrite Hroles in Hrole. apply list_elem_of_filter in Hrole as [_ Hrole].
    destruct (allowedRoles ≫= Resources) as [roles|]; simpl in Hrole.
    + by exists roles, (option_role option).
    + by apply elem_of_nil in Hrole.
Qed.

Lemma X15_invite_payload_witness :
  let console := mkRole "r1" "Administrator" (mkAudience "Console" "application") in
  let other := mkRole "r2" "Auditor" (mkAudience "Payroll" "application") in
  let option := mkOption "r2" "Auditor" other in
  ∃ events,
    inviteParentOrgUser "LIMIT" true
      (Some {| values_username := Some "alice";
               values_roles := Some [ Selected option ] |})
      None = Normal events ∧
    invitations events =
    [ {| invite_roles := Some [ "r2" ]; invite_username := Some "alice" |} ].
Proof.
  intros console other option.
  apply (X15_invite_payload "LIMIT" true None
           (Some {| Resources := Some [ console; other ] |})
           [ option ] [ option ] (Some "alice")).
  - reflexivity.
  - done.
Defined.

(** X16: [handleParentOrgUserInviteError] dispatches one alert, at level
    [ERROR].  It is the limit-reached alert exactly when the response has
    status 403 and the limit-reached code; it carries the server's
    description exactly when there is a response whose status is not 401,
    that is not such a limit-reached response, and whose description is a
    non-empty string. *)
Theorem X16_invite_error_alert (LIMIT : string) (error : AxiosError) :
  ∃ alert,
    handleParentOrgUserInviteError LIMIT error = [ Dispatch alert ] ∧
    alert_level alert = ERROR ∧
    (t_key (alert_description alert) =
       "extensions:manage.invite.notifications.sendInvite.limitReachError.description" ↔
     ∃ response,
       error_response error = Some response ∧
       response_status response = 403 ∧
       response_data response ≫= data_code = Some LIMIT) ∧
    (∀ description,
       t_description (alert_description alert) = Some description ↔
       ∃ response,
         error_response error = Some response ∧
         response_status response ≠ 401 ∧
         ¬ (response_status response = 403 ∧
            response_data response ≫= data_code = Some LIMIT) ∧
         response_data response ≫= data_description = Some description ∧
         description ≠ "").
Proof.
  unfold handleParentOrgUserInviteError.
  destruct (error_response error) as [response|].
  2:{ eexists. split; [reflexivity |]. split; [reflexivity |]. simpl. split.
      - split; [discriminate | by intros (r & [=] & _)].
      - intros d. split; [discriminate | by intros (r & [=] & _)]. }
  destruct (decide (response_status response = 401)) as [H401|H401].
  { eexists. split; [reflexivity |]. split; [reflexivity |]. simpl. split.
    - split; [discriminate |]. intros (r & [= <-] & H403 & _). congruence.
    - intros d. split; [discriminate |]. by intros (r & [= <-] & Hne & _). }
  destruct (decide (response_status response = 403 ∧
                    response_data response ≫= data_code = Some LIMIT))
    as [[H403 Hcode]|Hlimit].
  { rewrite !bool_decide_eq_true_2 by done. simpl.
    eexists. split; [reflexivity |]. split; [reflexivity |]. simpl. split.
    - split; [by exists response | done].
    - intros d. split; [discriminate |].
      intros (r & [= <-] & _ & Hnot & _). by destruct Hnot. }
  assert (bool_decide (response_status response = 403) &&
          bool_decide (response_data response ≫= data_code = Some LIMIT) = false)
    as ->.
  { apply andb_false_iff.
    destruct (decide (response_status response = 403)).
    - right. apply bool_decide_eq_false_2. tauto.
    - left. by apply bool_decide_eq_false_2. }
  destruct (response_data response ≫= data_description) as [text|] eqn:Htext;
    simpl.
  - destruct (decide (text ≠ "")) as [Hne|He].
    + rewrite bool_decide_eq_true_2 by done.
      eexists. split; [reflexivity |]. split; [reflexivity |]. simpl. split.
      * split; [discriminate |]. intros (r & [= <-] & H403 & Hcode). tauto.
      * intros d. split.
        -- intros [= <-]. by exists response.
        -- intros (r & [= <-] & _ & _ & Hd & _). congruence.
    + rewrite bool_decide_eq_false_2 by done.
      eexists. split; [reflexivity |]. split; [reflexivity |]. simpl. split.
      * split; [discriminate |]. intros (r & [= <-] & H403 & Hcode). tauto.
      * intros d. split; [discriminate |].
        intros (r & [= <-] & _ & _ & Hd & Hdne). rewrite Htext in Hd.
        injection Hd as <-. by destruct He.
  - eexists. split; [reflexivity |]. split; [reflexivity |]. simpl. split.
    + split; [discriminate |]. intros (r & [= <-] & H403 & Hcode). tauto.
    + intros d. split; [discriminate |].
      intros (r & [= <-] & _ & _ & Hd & _). congruence.
Qed.

(** X17: [inviteParentOrgUser] builds the invitation before anything
    else: when an entry of the roles field is text the user typed, it
    throws the [TypeError] of reading [id] on [undefined], and nothing has
    happened yet.  When every entry is an option (or the field is absent),
    and provided the callbacks return, it first sets the submitting flag,
    then sends one invitation, dispatches one alert, and last clears the
    submitting flag.  The alert is a success alert exactly when the request
    was fulfilled.  The wizard is closed twice when the request was
    fulfilled and once when it was rejected, and [onUserInviteSuccess] runs
    only when it was given and the request was fulfilled. *)
Theorem X17_invite_events
  (LIMIT : string) (onUserInviteSuccess : bool)
  (values : option InviteParentOrgUserFormValuesInterface)
  (outcome : option AxiosError) :
  ((∃ roles text,
      values ≫= values_roles = Some roles ∧ FreeSolo text ∈ roles) →
   inviteParentOrgUser LIMIT onUserInviteSuccess values outcome =
     Throw (TypeError "id")) ∧
  ((∀ roles text,
      values ≫= values_roles = Some roles → FreeSolo text ∉ roles) →
   ∃ events,
     inviteParentOrgUser LIMIT onUserInviteSuccess values outcome =
       Normal events ∧
     (∃ invite rest,
        events = SetIsSubmitting true :: SendParentOrgUserInvite invite :: rest ∧
        invitations rest = []) ∧
     last events = Some (SetIsSubmitting false) ∧
     (∃ alert,
        alerts events = [ alert ] ∧
        (alert_level alert = SUCCESS ↔ outcome = None)) ∧
     closings events = match outcome with Some _ => 1 | None => 2 end ∧
     (OnUserInviteSuccess ∈ events ↔
      onUserInviteSuccess = true ∧ outcome = None)).
Proof.
  unfold inviteParentOrgUser. split.
  - intros (roles & text & -> & Hin).
    by rewrite (array_map_free_solo roles text Hin).
  - intros Hno.
    assert (∃ roles : option (list string),
              match values ≫= values_roles with
              | Some roles =>
                  identifiers ← array_map entry_role_id roles;
                  mret (Some identifiers)
              | None => Normal None
              end = Normal roles) as [identifiers ->].
    { destruct (values ≫= values_roles) as [roles|]; [|by eexists].
      destruct (array_map_options roles) as [identifiers ->]; [|by eexists].
      intros text. by apply Hno. }
    simpl. eexists. split; [reflexivity |].
    destruct outcome as [error|].
    + destruct (handle_error_alert LIMIT error) as (alert & -> & Hlevel).
      simpl. split; [eexists _, _; split; reflexivity |].
      split; [reflexivity |]. split.
      * exists alert. split; [reflexivity |]. rewrite Hlevel.
        split; discriminate.
      * split; [reflexivity |]. rewrite !elem_of_cons, elem_of_nil.
        split; [|intros [_ [=]]].
        intros [H|[H|[H|[H|[H|[]]]]]]; discriminate H.
    + destruct onUserInviteSuccess; simpl.
      * split; [eexists _, _; split; reflexivity |].
        split; [reflexivity |].
        split; [eexists; split; [reflexivity | done] |].
        split; [reflexivity |]. rewrite !elem_of_cons. tauto.
      * split; [eexists _, _; split; reflexivity |].
        split; [reflexivity |].
        split; [eexists; split; [reflexivity | done] |].
        split; [reflexivity |]. rewrite !elem_of_cons, elem_of_nil.
        split; [|intros [[=] _]].
        intros [H|[H|[H|[H|[H|[H|[]]]]]]]; discriminate H.
Qed.

Lemma X17_invite_events_witness :
  let option :=
    mkOption "r2" "Auditor"
      (mkRole "r2" "Auditor" (mkAudience "Payroll" "application")) in
  inviteParentOrgUser "LIMIT" true
    (Some {| values_username := Some "alice";
             values_roles := Some [ Selected option; FreeSolo "typed" ] |})
    None = Throw (TypeError "id") ∧
  ∃ events,
    inviteParentOrgUser "LIMIT" true
      (Some {| values_username := Some "alice";
               values_roles := Some [ Selected option ] |})
      None = Normal events ∧
    closings events = 2.
Proof.
  intros option. split.
  - apply (proj1 (X17_invite_events "LIMIT" true _ None)).
    exists [ Selected option; FreeSolo "typed" ], "typed".
    split; [reflexivity |]. apply list_elem_of_further, list_elem_of_here.
  - destruct (proj2 (X17_invite_events "LIMIT" true
                (Some {| values_username := Some "alice";
                         values_roles := Some [ Selected option ] |}) None))
      as (events & Hrun & _ & _ & _ & Hclosings & _).
    + intros roles text [= <-] Hin.
      apply list_elem_of_singleton in Hin. discriminate Hin.
    + by exists events.
Defined.

End InviteParentOrgUserProofs.
